(** * TabView / TabPanel: selection engine and header scrolling

    Shallow embedding of [src/packages/primeng/src/tabview/tabview.ts].

    A [TabPanel] is a JavaScript object: the container's [tabs] array, the
    argument of [open]/[close]/[closeTab] and the continuation carried by a
    close event all alias the same objects.  Panels therefore live in a
    store ([Heap]) and are named by references ([PanelRef]); [tabs] is a list
    of references, compared with [==] as in [findTabIndex].

    Container methods are state transformers in a small state-and-exception
    monad: the only failure the code can run into is the [TypeError] raised
    when a property is written through [null]/[undefined]. *)

From Stdlib Require Import ZArith List Bool Arith Lia.
Import ListNotations.
From Stdlib Require String Ascii.
Import String.StringSyntax.
Delimit Scope string_scope with string.

(** ** Data model *)

Definition PanelRef := nat.
Definition DomEvent := nat.

(** The fields of [TabPanel] that the container reads or writes.  [selected]
    and [disabled] are the getter values [!!this._selected] and
    [!!this._disabled]. *)
Record TabPanel := mkPanel {
  selected : bool;
  disabled : bool;
  closed : bool;
  loaded : bool
}.

Definition with_selected (v : bool) (p : TabPanel) : TabPanel :=
  mkPanel v (disabled p) (closed p) (loaded p).
Definition with_closed (v : bool) (p : TabPanel) : TabPanel :=
  mkPanel (selected p) (disabled p) v (loaded p).
Definition with_loaded (v : bool) (p : TabPanel) : TabPanel :=
  mkPanel (selected p) (disabled p) (closed p) v.

Definition Heap := PanelRef -> TabPanel.

Definition upd (h : Heap) (p : PanelRef) (x : TabPanel) : Heap :=
  fun q => if Nat.eqb q p then x else h q.

(** [TabViewChangeEvent] and [TabViewCloseEvent].  The [close] continuation of
    a controlled close event is the closure [() => this.closeTab(tab)]; it is
    represented by the panel it captures. *)
Record TabViewChangeEvent := mkChange {
  chg_originalEvent : option DomEvent;
  chg_index : Z
}.

Record TabViewCloseEvent := mkClose {
  cls_originalEvent : option DomEvent;
  cls_index : Z;
  cls_close : option PanelRef
}.

(** What a method does to the outside world, in program order.
    [ScrollIntoView i] is [tabHeader.scrollIntoView({ block: 'nearest' })] on
    the header button whose [data-pc-index] is [i]. *)
Inductive Effect :=
| EmitActiveIndexChange (index : Z)
| EmitOnChange (e : TabViewChangeEvent)
| EmitOnClose (e : TabViewCloseEvent)
| ScrollIntoView (tabHeader : nat)
| PreventDefault (e : DomEvent)
| StopPropagation (e : DomEvent)
| DetectChanges (p : PanelRef)
| MarkForCheck.

(** The container together with the panel store.  [tabs] is [undefined]
    before the first [initTabs]; it is the empty list here, which the guards
    [this.tabs && this.tabs.length] cannot tell apart. *)
Record State := mkState {
  heap : Heap;
  tabs : list PanelRef;
  _activeIndex : option Z;
  preventActiveIndexPropagation : bool;
  tabChanged : bool;
  controlClose : bool;
  effects : list Effect
}.

Definition with_heap (h : Heap) (s : State) : State :=
  mkState h (tabs s) (_activeIndex s) (preventActiveIndexPropagation s)
          (tabChanged s) (controlClose s) (effects s).
Definition with_tabs (l : list PanelRef) (s : State) : State :=
  mkState (heap s) l (_activeIndex s) (preventActiveIndexPropagation s)
          (tabChanged s) (controlClose s) (effects s).
Definition with_activeIndex (v : option Z) (s : State) : State :=
  mkState (heap s) (tabs s) v (preventActiveIndexPropagation s)
          (tabChanged s) (controlClose s) (effects s).
Definition with_prevent (b : bool) (s : State) : State :=
  mkState (heap s) (tabs s) (_activeIndex s) b
          (tabChanged s) (controlClose s) (effects s).
Definition with_tabChanged (b : bool) (s : State) : State :=
  mkState (heap s) (tabs s) (_activeIndex s) (preventActiveIndexPropagation s)
          b (controlClose s) (effects s).
Definition perform (e : Effect) (s : State) : State :=
  mkState (heap s) (tabs s) (_activeIndex s) (preventActiveIndexPropagation s)
          (tabChanged s) (controlClose s) (effects s ++ [e]).

Definition set_panel (p : PanelRef) (f : TabPanel -> TabPanel) (s : State) : State :=
  with_heap (upd (heap s) p (f (heap s p))) s.

(** ** The monad *)

Inductive Exn := TypeError.

Inductive Res (A : Type) :=
| Ok (a : A) (s : State)
| Throw (e : Exn) (s : State).

Arguments Ok {A} a s.
Arguments Throw {A} e s.

Definition M (A : Type) := State -> Res A.

Definition ret {A} (a : A) : M A := fun s => Ok a s.
Definition bind {A B} (m : M A) (k : A -> M B) : M B :=
  fun s => match m s with
           | Ok a s' => k a s'
           | Throw e s' => Throw e s'
           end.
Definition throw {A} (e : Exn) : M A := fun s => Throw e s.
Definition get : M State := fun s => Ok s s.
Definition modify (f : State -> State) : M unit := fun s => Ok tt (f s).

Notation "x <- c1 ;; c2" := (bind c1 (fun x => c2))
  (at level 61, c1 at next level, right associativity).
Notation "c1 ;; c2" := (bind c1 (fun _ => c2))
  (at level 61, right associativity).

(** The state a call leaves behind, whether it returned or threw. *)
Definition final {A} (r : Res A) : State :=
  match r with Ok _ s => s | Throw _ s => s end.

Definition threw {A} (r : Res A) : bool :=
  match r with Ok _ _ => false | Throw _ _ => true end.

(** Writing a property of [x] where [x] may be [null] or [undefined]. *)
Definition deref {A} (x : option A) : M A :=
  match x with Some a => ret a | None => throw TypeError end.

(** ** TabPanel *)

(** [set selected(val)]: store the flag, ask for change detection while the
    panel has not been loaded, and mark it loaded on selection. *)
Definition set_selected (p : PanelRef) (val : bool) (s : State) : State :=
  let s1 := set_panel p (with_selected val) s in
  let s2 := if loaded (heap s1 p) then s1 else perform (DetectChanges p) s1 in
  if val then set_panel p (with_loaded true) s2 else s2.

Definition set_closed (p : PanelRef) (val : bool) (s : State) : State :=
  set_panel p (with_closed val) s.

(** ** The rendered header strip *)

(** The children of the [navbar] element as the template renders them: for
    every panel of [tabs] that is not closed, a header button carrying
    [data-pc-index], [data-p-disabled] and [data-p-active], followed by the
    ink bar [span].  An element is named by its position among the
    children. *)
Inductive Element :=
| HeaderAction (pc_index : nat) (p_disabled : bool) (p_active : bool)
| InkBarElement.

Fixpoint render_tabs (i : nat) (l : list PanelRef) (h : Heap) : list Element :=
  match l with
  | [] => []
  | tab :: rest =>
      (if closed (h tab) then []
       else [HeaderAction i (disabled (h tab)) (selected (h tab)); InkBarElement])
      ++ render_tabs (S i) rest h
  end.

Definition navbar_children (s : State) : list Element :=
  render_tabs 0 (tabs s) (heap s).

(** [getAttribute(el, 'data-p-disabled')], [getAttribute(el,
    'data-pc-section') === 'inkbar'] and [getAttribute(el, 'data-pc-index')]. *)
Definition data_p_disabled (e : Element) : bool :=
  match e with HeaderAction _ d _ => d | InkBarElement => false end.

Definition is_inkbar (e : Element) : bool :=
  match e with HeaderAction _ _ _ => false | InkBarElement => true end.

Definition data_pc_index (e : Element) : option nat :=
  match e with HeaderAction i _ _ => Some i | InkBarElement => None end.

(** [find(this.navbar.nativeElement, '[data-pc-section="headeraction"]')]:
    the header buttons among the children, in order. *)
Definition header_actions (dom : list Element) : list Element :=
  filter (fun e => negb (is_inkbar e)) dom.

(** ** TabView *)

(** Subscribers of the three [EventEmitter]s.  [emit] runs them synchronously,
    so a subscriber sees, and may change, the state at the point of the
    emission. *)
Record Subscribers := mkSubs {
  on_activeIndexChange : Z -> State -> State;
  on_onChange : TabViewChangeEvent -> State -> State;
  on_onClose : TabViewCloseEvent -> State -> State
}.

Definition findSelectedTab (s : State) : option PanelRef :=
  find (fun p => selected (heap s p)) (tabs s).

Fixpoint findTabIndex_from (i : Z) (l : list PanelRef) (tab : PanelRef) : Z :=
  match l with
  | [] => (-1)%Z
  | p :: l' => if Nat.eqb p tab then i else findTabIndex_from (i + 1)%Z l' tab
  end.

Definition findTabIndex (tab : PanelRef) (s : State) : Z :=
  findTabIndex_from 0%Z (tabs s) tab.

(** [this.tabs[i]]: [undefined] outside [0 .. length - 1]. *)
Definition tab_at (i : Z) (s : State) : option PanelRef :=
  if (i <? 0)%Z then None else nth_error (tabs s) (Z.to_nat i).

(** [find(this.navbar.nativeElement, '[data-pc-section="headeraction"]')[index]]
    by its [data-pc-index]: the header button at position [index] among the
    rendered header buttons, [undefined] when there is none.  The strip is
    taken to be up to date with [tabs] and the [closed] flags when the lookup
    runs: the template renders it from them, and neither [open] nor the
    [activeIndex] setter changes them. *)
Definition scrollBar_target (s : State) (index : Z) : option nat :=
  if (index <? 0)%Z then None
  else match nth_error (header_actions (navbar_children s)) (Z.to_nat index) with
       | Some tabHeader => data_pc_index tabHeader
       | None => None
       end.

(** [updateScrollBar(index)]: the header is asked to scroll into view only
    [if (tabHeader)]. *)
Definition updateScrollBar (index : Z) : M unit :=
  s <- get ;;
  match scrollBar_target s index with
  | Some tabHeader => modify (perform (ScrollIntoView tabHeader))
  | None => ret tt
  end.

Definition preventDefault (event : option DomEvent) : M unit :=
  match event with
  | Some e => modify (perform (PreventDefault e))
  | None => ret tt
  end.

(** [set activeIndex(val)] *)
Definition set_activeIndex (val : option Z) : M unit :=
  modify (with_activeIndex val) ;;
  s <- get ;;
  if preventActiveIndexPropagation s then
    modify (with_prevent false)
  else
    match _activeIndex s with
    | Some i =>
        if negb (Nat.eqb (length (tabs s)) 0) && (i <? Z.of_nat (length (tabs s)))%Z then
          cur <- deref (findSelectedTab s) ;;
          modify (set_selected cur false) ;;
          s1 <- get ;;
          target <- deref (tab_at i s1) ;;
          modify (set_selected target true) ;;
          modify (with_tabChanged true) ;;
          updateScrollBar i
        else ret tt
    | None => ret tt
    end.

(** [initTabs()]; [panels] is [this.tabPanels.toArray()]. *)
Definition initTabs (panels : list PanelRef) : M unit :=
  modify (with_tabs panels) ;;
  s <- get ;;
  match findSelectedTab s with
  | None =>
      if negb (Nat.eqb (length (tabs s)) 0) then
        match _activeIndex s with
        | Some i =>
            if (i <? Z.of_nat (length (tabs s)))%Z then
              target <- deref (tab_at i s) ;;
              modify (set_selected target true)
            else
              first <- deref (tab_at 0%Z s) ;;
              modify (set_selected first true)
        | None =>
            first <- deref (tab_at 0%Z s) ;;
            modify (set_selected first true)
        end ;;
        modify (with_tabChanged true)
      else ret tt
  | Some _ => ret tt
  end ;;
  modify (perform MarkForCheck).

(** The selection loop of [closeTab]: [l] is what is left of [this.tabs]. *)
Fixpoint closeTab_loop (tab : PanelRef) (l : list PanelRef) (s : State) : State :=
  match l with
  | [] => s
  | tabPanel :: l' =>
      if negb (closed (heap s tabPanel)) && negb (disabled (heap s tab)) then
        set_selected tabPanel true s
      else closeTab_loop tab l' s
  end.

Definition closeTab (tab : PanelRef) : M unit :=
  s <- get ;;
  if disabled (heap s tab) then ret tt
  else
    (if selected (heap s tab) then
       modify (with_tabChanged true) ;;
       modify (set_selected tab false) ;;
       s1 <- get ;;
       modify (closeTab_loop tab (tabs s1))
     else ret tt) ;;
    modify (set_closed tab true).

Section Emitters.

Variable subs : Subscribers.

Definition emit_activeIndexChange (index : Z) : M unit :=
  modify (perform (EmitActiveIndexChange index)) ;;
  modify (on_activeIndexChange subs index).

Definition emit_onChange (e : TabViewChangeEvent) : M unit :=
  modify (perform (EmitOnChange e)) ;;
  modify (on_onChange subs e).

Definition emit_onClose (e : TabViewCloseEvent) : M unit :=
  modify (perform (EmitOnClose e)) ;;
  modify (on_onClose subs e).

Definition open (event : option DomEvent) (tab : PanelRef) : M unit :=
  s <- get ;;
  if disabled (heap s tab) then preventDefault event
  else
    (if negb (selected (heap s tab)) then
       match findSelectedTab s with
       | Some selectedTab => modify (set_selected selectedTab false)
       | None => ret tt
       end ;;
       modify (with_tabChanged true) ;;
       modify (set_selected tab true) ;;
       s1 <- get ;;
       let selectedTabIndex := findTabIndex tab s1 in
       modify (with_prevent true) ;;
       emit_activeIndexChange selectedTabIndex ;;
       emit_onChange (mkChange event selectedTabIndex) ;;
       updateScrollBar selectedTabIndex
     else ret tt) ;;
    preventDefault event.

(** [close(event, tab)]; [event.stopPropagation()] is not guarded. *)
Definition close (event : option DomEvent) (tab : PanelRef) : M unit :=
  s <- get ;;
  (if controlClose s then
     emit_onClose (mkClose event (findTabIndex tab s) (Some tab))
   else
     closeTab tab ;;
     s1 <- get ;;
     emit_onClose (mkClose event (findTabIndex tab s1) None)) ;;
  e <- deref event ;;
  modify (perform (StopPropagation e)).

End Emitters.

(** No subscriber at all, and a subscriber of [activeIndexChange] that
    assigns the emitted index to the container's [activeIndex] from inside
    its handler, as [(activeIndexChange)="tabView.activeIndex = $event"]
    does: the synchronous write-back the guard flag is there for.

    Angular's two-way binding [[(activeIndex)]] is not this subscriber.  It
    assigns the emitted index to the host's own field, which leaves the
    container alone, and the setter runs with that value at the host's next
    change detection, after [open] has returned: that is [no_subscribers]
    followed by an assignment to [activeIndex]. *)
Definition no_subscribers : Subscribers :=
  mkSubs (fun _ s => s) (fun _ s => s) (fun _ s => s).

Definition write_back (index : Z) (s : State) : State :=
  final (set_activeIndex (Some index) s).

Definition write_back_subscriber : Subscribers :=
  mkSubs write_back (fun _ s => s) (fun _ s => s).

Arguments set_selected : simpl never.
Arguments set_closed : simpl never.
Arguments findSelectedTab : simpl never.
Arguments findTabIndex : simpl never.
Arguments tab_at : simpl never.
Arguments closeTab : simpl never.
Arguments set_activeIndex : simpl never.
Arguments initTabs : simpl never.
Arguments updateScrollBar : simpl never.

(** ** Sequences of container operations *)

Inductive Op :=
| OpOpen (event : option DomEvent) (tab : PanelRef)
| OpCloseTab (tab : PanelRef)
| OpSetActiveIndex (val : option Z)
| OpInitTabs (panels : list PanelRef).

Definition exec (subs : Subscribers) (o : Op) (s : State) : State :=
  match o with
  | OpOpen event tab => final (open subs event tab s)
  | OpCloseTab tab => final (closeTab tab s)
  | OpSetActiveIndex val => final (set_activeIndex val s)
  | OpInitTabs panels => final (initTabs panels s)
  end.

Definition run (subs : Subscribers) (ops : list Op) (s : State) : State :=
  fold_left (fun st o => exec subs o st) ops s.

(** A freshly constructed panel and a container before [ngAfterContentInit]. *)
Definition fresh : TabPanel := mkPanel false false false false.

Definition mount (h : Heap) (activeIndex : option Z) (control : bool) : State :=
  mkState h [] activeIndex false false control [].

(** ** Predicates on states *)

Definition is_selected (s : State) (p : PanelRef) : bool := selected (heap s p).
Definition is_closed (s : State) (p : PanelRef) : bool := closed (heap s p).
Definition is_disabled (s : State) (p : PanelRef) : bool := disabled (heap s p).

(** No two different panels of [tabs] are selected. *)
Definition exclusive (s : State) : Prop :=
  forall p q, In p (tabs s) -> In q (tabs s) ->
    is_selected s p = true -> is_selected s q = true -> p = q.

(** The same restricted to panels that are not closed. *)
Definition at_most_one_open_selected (s : State) : Prop :=
  forall p q, In p (tabs s) -> In q (tabs s) ->
    is_closed s p = false -> is_selected s p = true ->
    is_closed s q = false -> is_selected s q = true -> p = q.

Definition none_selected (s : State) : Prop :=
  forall p, In p (tabs s) -> is_selected s p = false.

(** Subscribers that leave the panels and the [tabs] array alone.  The
    subscriber of [activeIndexChange] only ever runs while the guard flag is
    set, so the write-back subscriber qualifies. *)
Record passive (subs : Subscribers) : Prop := mkPassive {
  passive_index : forall i s, preventActiveIndexPropagation s = true ->
    heap (on_activeIndexChange subs i s) = heap s /\
    tabs (on_activeIndexChange subs i s) = tabs s;
  passive_change : forall e s,
    heap (on_onChange subs e s) = heap s /\ tabs (on_onChange subs e s) = tabs s;
  passive_close : forall e s,
    heap (on_onClose subs e s) = heap s /\ tabs (on_onClose subs e s) = tabs s
}.

(** Subscribers that perform no effect of their own. *)
Record silent (subs : Subscribers) : Prop := mkSilent {
  silent_index : forall i s, preventActiveIndexPropagation s = true ->
    effects (on_activeIndexChange subs i s) = effects s;
  silent_change : forall e s, effects (on_onChange subs e s) = effects s;
  silent_close : forall e s, effects (on_onClose subs e s) = effects s
}.

(** Which operations the rendered header strip and the content query can
    issue: [closeTab] reaches the container from the close icon of one of its
    own panels, and a re-synchronised [tabPanels] list holds panels the
    container already had or newly created, unselected ones. *)
Definition admissible (o : Op) (s : State) : Prop :=
  match o with
  | OpOpen _ _ => True
  | OpCloseTab tab => In tab (tabs s)
  | OpSetActiveIndex _ => True
  | OpInitTabs panels =>
      forall p, In p panels -> In p (tabs s) \/ is_selected s p = false
  end.

Inductive reachable (subs : Subscribers) : State -> Prop :=
| reach_init h activeIndex control panels :
    (forall p q, In p panels -> In q panels ->
       selected (h p) = true -> selected (h q) = true -> p = q) ->
    reachable subs (final (initTabs panels (mount h activeIndex control)))
| reach_step s o :
    reachable subs s -> admissible o s -> reachable subs (exec subs o s).

(** ** Header strip scrolling *)

(** What [navBackward] and [navForward] read, in pixels: [scrollLeft] and
    [scrollWidth] of the [content] element, [contentWidth] for
    [getWidth(content)], and the widths of the two navigation buttons, where
    a button that is not rendered ([this.prevBtn?.nativeElement] undefined)
    has none. *)
Record Viewport := mkViewport {
  scrollLeft : Z;
  scrollWidth : Z;
  contentWidth : Z;
  prevBtn : option Z;
  nextBtn : option Z
}.

Definition getVisibleButtonWidths (v : Viewport) : Z :=
  fold_left (fun acc el => match el with Some w => (acc + w)%Z | None => acc end)
            [prevBtn v; nextBtn v] 0%Z.

(** Each of the two methods ends in an assignment to [content.scrollLeft];
    it is given here by the offset it assigns.  What the element makes of an
    assigned offset is the browser's part, not the component's. *)
Definition navBackward (v : Viewport) : Z :=
  let width := (contentWidth v - getVisibleButtonWidths v)%Z in
  let pos := (scrollLeft v - width)%Z in
  if (pos <=? 0)%Z then 0%Z else pos.

Definition navForward (v : Viewport) : Z :=
  let width := (contentWidth v - getVisibleButtonWidths v)%Z in
  let pos := (scrollLeft v + width)%Z in
  let lastPos := (scrollWidth v - width)%Z in
  if (pos >=? lastPos)%Z then lastPos else pos.

(** ** Vocabulary of the statements *)

Definition is_notification (e : Effect) : bool :=
  match e with
  | EmitActiveIndexChange _ | EmitOnChange _ | EmitOnClose _ => true
  | _ => false
  end.

(** The notifications among the effects, in the order of their emission. *)
Definition notifications (l : list Effect) : list Effect := filter is_notification l.

(** [if (event) event.preventDefault()] as a state transformer. *)
Definition default_prevented (event : option DomEvent) (s : State) : State :=
  match event with
  | Some e => perform (PreventDefault e) s
  | None => s
  end.


(** [updateScrollBar(index)] as a state transformer, and what it adds to the
    effects: one request when the strip has a header button at position
    [index], nothing otherwise. *)
Definition scroll_requested (index : Z) (s : State) : State :=
  match scrollBar_target s index with
  | Some tabHeader => perform (ScrollIntoView tabHeader) s
  | None => s
  end.


Arguments scroll_requested : simpl never.

(** [if (selectedTab) selectedTab.selected = false] in [open]. *)
Definition deselect_current (s : State) : State :=
  match findSelectedTab s with
  | Some selectedTab => set_selected selectedTab false s
  | None => s
  end.

(** The state after the mutations of the selecting branch of [open]: the
    current panel deselected, the dirty flag set, [tab] selected. *)
Definition selection_moved_to (tab : PanelRef) (s : State) : State :=
  set_selected tab true (with_tabChanged true (deselect_current s)).

(** [event.stopPropagation()] at the end of [close]. *)
Definition propagation_stopped (event : option DomEvent) (s : State) : Res unit :=
  match event with
  | Some e => Ok tt (perform (StopPropagation e) s)
  | None => Throw TypeError s
  end.

(** The index [initTabs] writes through when nothing is selected. *)
Definition initial_index (s : State) (panels : list PanelRef) : Z :=
  match _activeIndex s with
  | Some i => if (i <? Z.of_nat (length panels))%Z then i else 0%Z
  | None => 0%Z
  end.




(** ** Sample states *)

(** Three fresh panels, then [initTabs] with no [activeIndex] bound: panel 0
    is selected. *)
Definition three_tabs : State :=
  final (initTabs [0; 1; 2] (mount (fun _ => fresh) None false)).

(** Three fresh panels with [activeIndex = 1]: panel 1 is selected. *)
Definition three_tabs_second : State :=
  final (initTabs [0; 1; 2] (mount (fun _ => fresh) (Some 1%Z) false)).

(** [three_tabs] after [activeIndex = -1] has thrown: nothing is selected. *)
Definition three_tabs_unselected : State :=
  final (set_activeIndex (Some (-1)%Z) three_tabs).

(** [open] on panel 1 with nobody writing the index back, then every panel
    closed, panel 1 twice: nothing is selected and the guard flag that [open]
    set is still pending. *)
Definition unselected_guard_pending : State :=
  run no_subscribers
      [OpOpen (Some 7) 1; OpCloseTab 0; OpCloseTab 2; OpCloseTab 1; OpCloseTab 1]
      three_tabs.

(** [three_tabs] after the close icon of the unselected panel 2. *)
Definition third_closed : State := final (closeTab 2 three_tabs).

(** [three_tabs_second] after the close icon of the unselected panel 0: the
    strip shows the headers of panels 1 and 2. *)
Definition first_closed : State := final (closeTab 0 three_tabs_second).

(** [three_tabs_second], then a re-synchronisation in which the selected
    panel 1 is gone and a new panel 3 has come, then [closeTab] on the
    dropped panel 1. *)
Definition dropped_panel_closed : State :=
  run no_subscribers [OpInitTabs [0; 2; 3]; OpCloseTab 1] three_tabs_second.

(** Panel 0 disabled, panel 1 selected. *)
Definition first_disabled : State :=
  final (initTabs [0; 1; 2]
           (mount (upd (fun _ => fresh) 0 (mkPanel false true false false))
                  (Some 1%Z) false)).

(** Panel 0 selected, panel 1 disabled. *)
Definition second_disabled : State :=
  final (initTabs [0; 1; 2]
           (mount (upd (fun _ => fresh) 1 (mkPanel false true false false))
                  None false)).

(** A run that goes through all four operations: select panel 2, close it,
    assign [activeIndex = 1], then re-synchronise with panel 0 gone and a new
    panel 3. *)
Definition busy_run : list Op :=
  [OpOpen (Some 7) 2; OpCloseTab 2; OpSetActiveIndex (Some 1%Z); OpInitTabs [1; 2; 3]].



(** ** How the operations change the panel store *)

(** The store of the second state comes from the store of the first through
    calls of the [selected] setter and assignments [closed = true] only. *)
Inductive evolves (s : State) : State -> Prop :=
| ev_same s' : heap s' = heap s -> evolves s s'
| ev_select s1 s' p v :
    evolves s s1 -> heap s' = heap (set_selected p v s1) -> evolves s s'
| ev_close s1 s' p :
    evolves s s1 -> heap s' = heap (set_closed p true s1) -> evolves s s'.

(** Every selected panel has had its content loaded. *)
Definition selected_are_loaded (s : State) : Prop :=
  forall p, is_selected s p = true -> loaded (heap s p) = true.

(** The state [close] works on when it emits, and the event it emits: in
    controlled mode nothing has been closed and the event carries the
    continuation; otherwise [closeTab] has run and the index is looked up
    afterwards. *)
Definition state_at_close_event (tab : PanelRef) (s : State) : State :=
  if controlClose s then s else final (closeTab tab s).

Definition close_event (event : option DomEvent) (tab : PanelRef) (s : State)
  : TabViewCloseEvent :=
  mkClose event (findTabIndex tab (state_at_close_event tab s))
          (if controlClose s then Some tab else None).

(** [three_tabs] with [controlClose] set. *)
Definition three_tabs_controlled : State :=
  final (initTabs [0; 1; 2] (mount (fun _ => fresh) None true)).

(** A call changed the [selected] flag of some panel. *)
Definition selection_changed (s s' : State) : Prop :=
  exists p, is_selected s' p <> is_selected s p.

(** ** Traversal of the header strip *)

(** The test that makes the traversal pass over an element. *)
Definition passed_over (e : Element) : bool := data_p_disabled e || is_inkbar e.

(** [findNextHeaderAction]: [siblings] starts with [headerElement], which
    sits at position [pos]; the recursive call looks at its next sibling. *)
Fixpoint findNextHeaderAction_at (pos : nat) (siblings : list Element) : option nat :=
  match siblings with
  | [] => None
  | headerElement :: following =>
      if passed_over headerElement
      then findNextHeaderAction_at (S pos) following
      else Some pos
  end.

Definition findNextHeaderAction (dom : list Element) (tabElement : nat)
           (selfCheck : bool) : option nat :=
  let start := if selfCheck then tabElement else S tabElement in
  findNextHeaderAction_at start (skipn start dom).

(** [findPrevHeaderAction]: [headerElement] is the child at position [pos];
    the recursive call looks at its previous sibling. *)
Fixpoint findPrevHeaderAction_at (dom : list Element) (pos : nat) : option nat :=
  match nth_error dom pos with
  | None => None
  | Some headerElement =>
      if passed_over headerElement
      then match pos with
           | 0 => None
           | S before => findPrevHeaderAction_at dom before
           end
      else Some pos
  end.

Definition findPrevHeaderAction (dom : list Element) (tabElement : nat)
           (selfCheck : bool) : option nat :=
  if selfCheck then findPrevHeaderAction_at dom tabElement
  else match tabElement with
       | 0 => None
       | S before => findPrevHeaderAction_at dom before
       end.

Definition findFirstHeaderAction (dom : list Element) : option nat :=
  findNextHeaderAction dom 0 true.

Definition findLastHeaderAction (dom : list Element) : option nat :=
  match length dom with
  | 0 => None
  | S lastEl =>
      match nth_error dom lastEl with
      | Some e =>
          if is_inkbar e
          then match lastEl with
               | 0 => None
               | S before => findPrevHeaderAction dom before true
               end
          else findPrevHeaderAction dom lastEl true
      | None => None
      end
  end.

(** [getAttribute(element, 'data-pc-index')] for an element that may be
    [null]. *)
Definition index_attribute (dom : list Element) (element : option nat) : option nat :=
  match element with
  | Some el => match nth_error dom el with
               | Some e => data_pc_index e
               | None => None
               end
  | None => None
  end.

(** ** Keyboard handlers *)

(** The container with what the key handlers need besides: the
    [selectOnFocus] input, the focused child of the navbar, and the children
    asked to scroll into view. *)
Record Page := mkPage {
  view : State;
  selectOnFocus : bool;
  activeElement : option nat;
  scrolledIntoView : list nat
}.

Definition with_view (s : State) (pg : Page) : Page :=
  mkPage s (selectOnFocus pg) (activeElement pg) (scrolledIntoView pg).

Definition focus (el : nat) (pg : Page) : Page :=
  mkPage (view pg) (selectOnFocus pg) (Some el) (scrolledIntoView pg).

Definition scrollIntoView (el : nat) (pg : Page) : Page :=
  mkPage (view pg) (selectOnFocus pg) (activeElement pg) (scrolledIntoView pg ++ [el]).

Inductive Outcome :=
| Done (pg : Page)
| Failed (e : Exn) (pg : Page).

Definition Handler := Page -> Outcome.

Definition and_then (h1 h2 : Handler) : Handler :=
  fun pg => match h1 pg with
            | Done pg' => h2 pg'
            | Failed e pg' => Failed e pg'
            end.

Definition lift (m : M unit) : Handler :=
  fun pg => match m (view pg) with
            | Ok _ s => Done (with_view s pg)
            | Throw e s => Failed e (with_view s pg)
            end.

Definition page_of (o : Outcome) : Page :=
  match o with Done pg => pg | Failed _ pg => pg end.

Definition failed (o : Outcome) : bool :=
  match o with Done _ => false | Failed _ _ => true end.

Record KeyboardEvent := mkKey {
  key_event : DomEvent;
  code : String.string;
  currentTarget : nat
}.

Section Keys.

Variable subs : Subscribers.

Definition changeFocusedTab (event : KeyboardEvent) (element : option nat)
           (index : option nat) : Handler :=
  fun pg =>
    match element with
    | None => Done pg
    | Some el =>
        let pg1 := scrollIntoView el (focus el pg) in
        if selectOnFocus pg1 then
          match index with
          | Some i =>
              match nth_error (tabs (view pg1)) i with
              | Some tab => lift (open subs (Some (key_event event)) tab) pg1
              | None => Failed TypeError pg1
              end
          | None => Failed TypeError pg1
          end
        else Done pg1
    end.

Definition key_preventDefault (event : KeyboardEvent) : Handler :=
  lift (modify (perform (PreventDefault (key_event event)))).

Definition onTabHomeKey (event : KeyboardEvent) : Handler :=
  fun pg =>
    let dom := navbar_children (view pg) in
    let firstHeaderAction := findFirstHeaderAction dom in
    let index := index_attribute dom firstHeaderAction in
    and_then (changeFocusedTab event firstHeaderAction index)
             (key_preventDefault event) pg.

Definition onTabEndKey (event : KeyboardEvent) : Handler :=
  fun pg =>
    let dom := navbar_children (view pg) in
    let lastHeaderAction := findLastHeaderAction dom in
    let index := index_attribute dom lastHeaderAction in
    and_then (changeFocusedTab event lastHeaderAction index)
             (key_preventDefault event) pg.

Definition onTabArrowLeftKey (event : KeyboardEvent) : Handler :=
  fun pg =>
    let dom := navbar_children (view pg) in
    let prevHeaderAction := findPrevHeaderAction dom (currentTarget event) false in
    let index := index_attribute dom prevHeaderAction in
    and_then (match prevHeaderAction with
              | Some _ => changeFocusedTab event prevHeaderAction index
              | None => onTabEndKey event
              end)
             (key_preventDefault event) pg.

Definition onTabArrowRightKey (event : KeyboardEvent) : Handler :=
  fun pg =>
    let dom := navbar_children (view pg) in
    let nextHeaderAction := findNextHeaderAction dom (currentTarget event) false in
    let index := index_attribute dom nextHeaderAction in
    and_then (match nextHeaderAction with
              | Some _ => changeFocusedTab event nextHeaderAction index
              | None => onTabHomeKey event
              end)
             (key_preventDefault event) pg.

Definition onTabKeyDown (event : KeyboardEvent) (tab : PanelRef) : Handler :=
  if String.eqb (code event) "ArrowLeft"%string then onTabArrowLeftKey event
  else if String.eqb (code event) "ArrowRight"%string then onTabArrowRightKey event
  else if String.eqb (code event) "Home"%string then onTabHomeKey event
  else if String.eqb (code event) "End"%string then onTabEndKey event
  else if String.eqb (code event) "PageDown"%string then onTabEndKey event
  else if String.eqb (code event) "PageUp"%string then onTabHomeKey event
  else if String.eqb (code event) "Enter"%string
          || String.eqb (code event) "Space"%string
       then lift (open subs (Some (key_event event)) tab)
  else Done.

End Keys.

(** The codes that move the focus. *)
Definition navigation_codes : list String.string :=
  ["ArrowLeft"; "ArrowRight"; "Home"; "End"; "PageDown"; "PageUp"]%string.

(** A child of the navbar that the traversal can stop at. *)
Definition reachable_header (dom : list Element) (pos : nat) : Prop :=
  exists e, nth_error dom pos = Some e /\ passed_over e = false.

(** A panel whose header the keyboard can reach. *)
Definition reachable_panel (s : State) (p : PanelRef) : bool :=
  negb (is_closed s p) && negb (is_disabled s p).

(** What a navigation key leaves behind: with a reachable header on the
    strip the focus is on the header of a panel of [tabs] that is neither
    closed nor disabled, and that panel is selected under [selectOnFocus];
    with none, focus and panels are as before; without [selectOnFocus] no
    panel changes. *)
Definition focus_moved (pg pg' : Page) : Prop :=
  let dom := navbar_children (view pg) in
  ((exists pos, reachable_header dom pos) ->
     exists pos i a p,
       activeElement pg' = Some pos /\
       nth_error dom pos = Some (HeaderAction i false a) /\
       nth_error (tabs (view pg)) i = Some p /\
       reachable_panel (view pg) p = true /\
       (selectOnFocus pg = true -> is_selected (view pg') p = true)) /\
  ((forall pos, ~ reachable_header dom pos) ->
     activeElement pg' = activeElement pg /\ heap (view pg') = heap (view pg)) /\
  (selectOnFocus pg = false -> heap (view pg') = heap (view pg)).

(** The handler returns normally and leaves the page as [focus_moved] says. *)
Definition handled (h : Handler) (pg : Page) : Prop :=
  exists pg', h pg = Done pg' /\ focus_moved pg pg'.

(** Three panels, the middle one disabled, focus on no header yet. *)
Definition sample_page (follow : bool) : Page :=
  mkPage second_disabled follow None [].

(** ** DOM identifiers *)

(** The template passes [tab.id], a [string | undefined], and a template
    literal prints [undefined] as the text [undefined]. *)
Definition template_text (tabId : option String.string) : String.string :=
  match tabId with
  | Some id => id
  | None => "undefined"%string
  end.

Definition getTabHeaderActionId (tabId : option String.string) : String.string :=
  String.append (template_text tabId) "_header_action"%string.

Definition getTabContentId (tabId : option String.string) : String.string :=
  String.append (template_text tabId) "_content"%string.

(** ** The active bar *)

(** Measurements of the rendered headers, by [data-pc-index]:
    [getOuterWidth(tabHeader)], [getOffset(tabHeader).left], and
    [getOffset(navbar).left]. *)
Record Geometry := mkGeometry {
  headerOuterWidth : nat -> Z;
  headerLeft : nat -> Z;
  navbarLeft : Z
}.

(** [style.width] and [style.left] of the ink bar, in pixels. *)
Record InkBarStyle := mkInk {
  ink_width : Z;
  ink_left : Z
}.

(** [findSingle(navbar, '[data-pc-section="headeraction"][data-p-active="true"]')]:
    the [data-pc-index] of the first active header. *)
Fixpoint active_header (dom : list Element) : option nat :=
  match dom with
  | [] => None
  | HeaderAction i _ true :: _ => Some i
  | _ :: rest => active_header rest
  end.

Section ActiveBar.

(** [isPlatformBrowser(this.platformId)] and whether the [navbar] view child
    exists. *)
Variable browser : bool.
Variable has_navbar : bool.
Variable geometry : Geometry.

Definition updateInkBar (s : State) (bar : InkBarStyle) : InkBarStyle :=
  if browser then
    if has_navbar then
      match active_header (navbar_children s) with
      | None => bar
      | Some tabHeader =>
          mkInk (headerOuterWidth geometry tabHeader)
                (headerLeft geometry tabHeader - navbarLeft geometry)
      end
    else bar
  else bar.

Definition ngAfterViewChecked (sb : State * InkBarStyle) : State * InkBarStyle :=
  let (s, bar) := sb in
  if browser then
    if tabChanged s then (with_tabChanged false s, updateInkBar s bar)
    else (s, bar)
  else (s, bar).

End ActiveBar.

(** ** Resize observer life cycle *)

(** DOM nodes and [ResizeObserver] objects by name.  [targets o] are the
    nodes observer [o] observes; the container holds a reference to at most
    one observer and to its subscription to the panel list. *)
Record Lifecycle := mkLifecycle {
  elementToObserve : nat;
  navcontent : nat;
  autoHideButtons : bool;
  targets : nat -> list nat;
  created : nat;
  resizeObserver : option nat;
  tabChangesSubscription : option bool
}.

Definition with_observer (t : nat -> list nat) (n : nat) (r : option nat)
           (lc : Lifecycle) : Lifecycle :=
  mkLifecycle (elementToObserve lc) (navcontent lc) (autoHideButtons lc)
              t n r (tabChangesSubscription lc).

(** [o.observe(node)] and [o.unobserve(node)]. *)
Definition observe (o node : nat) (t : nat -> list nat) : nat -> list nat :=
  fun k => if Nat.eqb k o then node :: t k else t k.

Definition unobserve (o node : nat) (t : nat -> list nat) : nat -> list nat :=
  fun k => if Nat.eqb k o
           then filter (fun n => negb (Nat.eqb n node)) (t k)
           else t k.

Definition bindResizeObserver (lc : Lifecycle) : Lifecycle :=
  let o := created lc in
  with_observer (observe o (navcontent lc) (fun k => if Nat.eqb k o then [] else targets lc k))
                (S o) (Some o) lc.

(** [unbindResizeObserver]; [None] is the [TypeError] of calling it without
    an observer. *)
Definition unbindResizeObserver (lc : Lifecycle) : option Lifecycle :=
  match resizeObserver lc with
  | Some o =>
      Some (with_observer (unobserve o (elementToObserve lc) (targets lc))
                          (created lc) None lc)
  | None => None
  end.

Definition ngAfterViewInit (browser : bool) (lc : Lifecycle) : Lifecycle :=
  if browser then
    if autoHideButtons lc then bindResizeObserver lc else lc
  else lc.

(** [ngOnDestroy]: a subscription is unsubscribed ([Some false]), an observer
    is unbound. *)
Definition ngOnDestroy (lc : Lifecycle) : option Lifecycle :=
  let lc1 :=
    match tabChangesSubscription lc with
    | Some _ =>
        mkLifecycle (elementToObserve lc) (navcontent lc) (autoHideButtons lc)
                    (targets lc) (created lc) (resizeObserver lc) (Some false)
    | None => lc
    end in
  match resizeObserver lc1 with
  | Some _ => unbindResizeObserver lc1
  | None => Some lc1
  end.

(** A container about to be shown in the browser, the observed node 11
    inside the node 10. *)
Definition sample_lifecycle : Lifecycle :=
  mkLifecycle 10 11 true (fun _ => []) 0 None (Some true).

(** * Properties *)

(** ** The panel store *)

Lemma upd_same h p x : upd h p x p = x.
Proof. unfold upd. now rewrite Nat.eqb_refl. Qed.

Lemma upd_other h p x q : q <> p -> upd h p x q = h q.
Proof. unfold upd. intros H. apply Nat.eqb_neq in H. now rewrite H. Qed.

Ltac panel_cases p q s :=
  unfold set_selected, set_closed, set_panel, upd; cbn;
  repeat match goal with
         | |- context [Nat.eqb p p] => rewrite (Nat.eqb_refl p); cbn
         | |- context [if loaded (heap s p) then _ else _] =>
             destruct (loaded (heap s p)); cbn
         | |- context [Nat.eqb q p] =>
             let E := fresh "E" in
             destruct (Nat.eqb q p) eqn:E;
             [apply Nat.eqb_eq in E; subst|]; cbn
         end; try reflexivity.

Lemma tabs_set_selected p v s : tabs (set_selected p v s) = tabs s.
Proof. destruct v; panel_cases p p s. Qed.

Lemma selected_set_selected p v s q :
  selected (heap (set_selected p v s) q) =
  if Nat.eqb q p then v else selected (heap s q).
Proof.
  destruct (Nat.eqb q p) eqn:E.
  - apply Nat.eqb_eq in E. subst. destruct v; panel_cases p p s.
  - destruct v; unfold set_selected, set_panel, upd; cbn;
      rewrite ?Nat.eqb_refl; cbn; destruct (loaded (heap s p)); cbn;
      rewrite ?E; reflexivity.
Qed.

Lemma closed_set_selected p v s q :
  closed (heap (set_selected p v s) q) = closed (heap s q).
Proof.
  destruct (Nat.eqb q p) eqn:E.
  - apply Nat.eqb_eq in E. subst. destruct v; panel_cases p p s.
  - destruct v; unfold set_selected, set_panel, upd; cbn;
      rewrite ?Nat.eqb_refl; cbn; destruct (loaded (heap s p)); cbn;
      rewrite ?E; reflexivity.
Qed.

Lemma disabled_set_selected p v s q :
  disabled (heap (set_selected p v s) q) = disabled (heap s q).
Proof.
  destruct (Nat.eqb q p) eqn:E.
  - apply Nat.eqb_eq in E. subst. destruct v; panel_cases p p s.
  - destruct v; unfold set_selected, set_panel, upd; cbn;
      rewrite ?Nat.eqb_refl; cbn; destruct (loaded (heap s p)); cbn;
      rewrite ?E; reflexivity.
Qed.


Lemma selected_set_closed p v s q :
  selected (heap (set_closed p v s) q) = selected (heap s q).
Proof.
  unfold set_closed, set_panel, upd. cbn.
  destruct (Nat.eqb q p) eqn:E; try reflexivity.
  apply Nat.eqb_eq in E; subst; reflexivity.
Qed.

Lemma closed_set_closed p v s q :
  closed (heap (set_closed p v s) q) =
  if Nat.eqb q p then v else closed (heap s q).
Proof. unfold set_closed, set_panel, upd. cbn. destruct (Nat.eqb q p); reflexivity. Qed.

(** ** Lookups *)

Lemma findSelectedTab_some s p :
  findSelectedTab s = Some p -> In p (tabs s) /\ is_selected s p = true.
Proof. unfold findSelectedTab. intros H. now apply find_some in H. Qed.

Lemma findSelectedTab_none s :
  findSelectedTab s = None -> none_selected s.
Proof.
  unfold findSelectedTab, none_selected, is_selected. intros H p Hp.
  exact (find_none _ _ H p Hp).
Qed.

Lemma none_selected_find s : none_selected s -> findSelectedTab s = None.
Proof.
  unfold none_selected, is_selected, findSelectedTab.
  induction (tabs s) as [|a l IH]; intros H; cbn; [reflexivity|].
  rewrite (H a (or_introl eq_refl)). apply IH. intros p Hp. apply H. now right.
Qed.

Lemma exclusive_find s p q :
  exclusive s -> findSelectedTab s = Some p ->
  In q (tabs s) -> is_selected s q = true -> q = p.
Proof.
  intros Hx Hf Hq Hs. destruct (findSelectedTab_some _ _ Hf) as [Hp Hsp].
  now apply Hx.
Qed.

Lemma tab_at_in i s p : tab_at i s = Some p -> In p (tabs s).
Proof.
  unfold tab_at. destruct (i <? 0)%Z; [discriminate|].
  apply nth_error_In.
Qed.

Lemma tab_at_in_range i s :
  (0 <= i < Z.of_nat (length (tabs s)))%Z -> exists p, tab_at i s = Some p.
Proof.
  intros [H0 H1]. unfold tab_at.
  destruct (i <? 0)%Z eqn:E; [apply Z.ltb_lt in E; lia|].
  destruct (nth_error (tabs s) (Z.to_nat i)) eqn:N; [eauto|].
  apply nth_error_None in N. lia.
Qed.

Lemma tab_at_negative i s : (i < 0)%Z -> tab_at i s = None.
Proof. intros H. unfold tab_at. apply Z.ltb_lt in H. now rewrite H. Qed.

Lemma findTabIndex_from_spec l tab i :
  In tab l ->
  (i <= findTabIndex_from i l tab)%Z /\
  nth_error l (Z.to_nat (findTabIndex_from i l tab - i)) = Some tab.
Proof.
  revert i. induction l as [|a l IH]; intros i Hin; [destruct Hin|].
  cbn [findTabIndex_from]. destruct (Nat.eqb a tab) eqn:E.
  - apply Nat.eqb_eq in E. subst. rewrite Z.sub_diag. cbn. split; [lia|reflexivity].
  - destruct Hin as [->|Hin]; [rewrite Nat.eqb_refl in E; discriminate|].
    destruct (IH (i + 1)%Z Hin) as [Hle Hn]. split; [lia|].
    replace (Z.to_nat (findTabIndex_from (i + 1) l tab - i))
      with (S (Z.to_nat (findTabIndex_from (i + 1) l tab - (i + 1)))) by lia.
    exact Hn.
Qed.

Lemma findTabIndex_spec tab s :
  In tab (tabs s) -> tab_at (findTabIndex tab s) s = Some tab.
Proof.
  intros Hin. unfold findTabIndex, tab_at.
  destruct (findTabIndex_from_spec _ _ 0%Z Hin) as [Hle Hn].
  destruct (_ <? 0)%Z eqn:E; [apply Z.ltb_lt in E; lia|].
  now rewrite Z.sub_0_r in Hn.
Qed.

(** ** updateScrollBar *)

Lemma updateScrollBar_run index s :
  updateScrollBar index s = Ok tt (scroll_requested index s).
Proof.
  unfold updateScrollBar, scroll_requested, bind, get, modify, ret.
  destruct (scrollBar_target s index); reflexivity.
Qed.

Lemma heap_scroll_requested index s : heap (scroll_requested index s) = heap s.
Proof. unfold scroll_requested. destruct (scrollBar_target s index); reflexivity. Qed.

Lemma tabs_scroll_requested index s : tabs (scroll_requested index s) = tabs s.
Proof. unfold scroll_requested. destruct (scrollBar_target s index); reflexivity. Qed.

Lemma activeIndex_scroll_requested index s :
  _activeIndex (scroll_requested index s) = _activeIndex s.
Proof. unfold scroll_requested. destruct (scrollBar_target s index); reflexivity. Qed.

Lemma prevent_scroll_requested index s :
  preventActiveIndexPropagation (scroll_requested index s) =
  preventActiveIndexPropagation s.
Proof. unfold scroll_requested. destruct (scrollBar_target s index); reflexivity. Qed.

Lemma tabChanged_scroll_requested index s :
  tabChanged (scroll_requested index s) = tabChanged s.
Proof. unfold scroll_requested. destruct (scrollBar_target s index); reflexivity. Qed.



Lemma notifications_scroll_requested index s :
  notifications (effects (scroll_requested index s)) = notifications (effects s).
Proof.
  unfold scroll_requested. destruct (scrollBar_target s index); [|reflexivity].
  cbn. unfold notifications. rewrite filter_app. cbn. apply app_nil_r.
Qed.



(** ** The activeIndex setter *)

Lemma in_range_guard (l : list PanelRef) k :
  (k < Z.of_nat (length l))%Z -> l <> [] ->
  negb (Nat.eqb (length l) 0) && (k <? Z.of_nat (length l))%Z = true.
Proof.
  intros Hk Hl. apply andb_true_iff. split.
  - destruct l; [congruence|reflexivity].
  - now apply Z.ltb_lt.
Qed.

Lemma range_nonempty (l : list PanelRef) k :
  (0 <= k < Z.of_nat (length l))%Z -> l <> [].
Proof. intros H ->. cbn in H. lia. Qed.

(** While the guard flag is pending the setter only stores the value and
    clears the flag. *)
Lemma set_activeIndex_pending val s :
  preventActiveIndexPropagation s = true ->
  set_activeIndex val s = Ok tt (with_prevent false (with_activeIndex val s)).
Proof.
  intros H. unfold set_activeIndex, bind, modify, get. cbn. now rewrite H.
Qed.

Lemma set_activeIndex_unselected s k :
  preventActiveIndexPropagation s = false ->
  none_selected s ->
  (k < Z.of_nat (length (tabs s)))%Z -> tabs s <> [] ->
  set_activeIndex (Some k) s = Throw TypeError (with_activeIndex (Some k) s).
Proof.
  intros Hg Hn Hk Hne.
  unfold set_activeIndex, bind, modify, get. cbn. rewrite Hg.
  rewrite (in_range_guard _ _ Hk Hne).
  replace (findSelectedTab (with_activeIndex (Some k) s)) with (findSelectedTab s)
    by reflexivity.
  now rewrite (none_selected_find _ Hn).
Qed.

Lemma set_activeIndex_in_range s k cur target :
  preventActiveIndexPropagation s = false ->
  findSelectedTab s = Some cur ->
  tab_at k s = Some target ->
  set_activeIndex (Some k) s =
  Ok tt (scroll_requested k
          (with_tabChanged true
            (set_selected target true
              (set_selected cur false (with_activeIndex (Some k) s))))).
Proof.
  intros Hg Hc Ht.
  assert (Hin := tab_at_in _ _ _ Ht).
  assert (Hk : (k < Z.of_nat (length (tabs s)))%Z).
  { unfold tab_at in Ht. destruct (k <? 0)%Z eqn:E; [discriminate|].
    assert (Z.to_nat k < length (tabs s))%nat
      by (apply nth_error_Some; congruence).
    apply Z.ltb_ge in E. lia. }
  assert (Hne : tabs s <> []) by (intros E; rewrite E in Hin; destruct Hin).
  unfold set_activeIndex, bind, modify, get. cbn. rewrite Hg.
  rewrite (in_range_guard _ _ Hk Hne).
  replace (findSelectedTab (with_activeIndex (Some k) s)) with (findSelectedTab s)
    by reflexivity.
  rewrite Hc. cbn.
  replace (tab_at k (set_selected cur false (with_activeIndex (Some k) s)))
    with (tab_at k s)
    by (unfold tab_at; now rewrite tabs_set_selected).
  rewrite Ht. cbn. apply updateScrollBar_run.
Qed.

(** A negative index passes the test [this.tabs.length > this._activeIndex]:
    the selected panel is deselected and the write through
    [this.tabs[this._activeIndex]] throws. *)
Lemma set_activeIndex_negative s k cur :
  preventActiveIndexPropagation s = false ->
  findSelectedTab s = Some cur ->
  (k < 0)%Z ->
  set_activeIndex (Some k) s =
  Throw TypeError (set_selected cur false (with_activeIndex (Some k) s)).
Proof.
  intros Hg Hc Hk.
  destruct (findSelectedTab_some _ _ Hc) as [Hin _].
  assert (Hne : tabs s <> []) by (intros E; rewrite E in Hin; destruct Hin).
  assert (Hk' : (k < Z.of_nat (length (tabs s)))%Z) by lia.
  unfold set_activeIndex, bind, modify, get. cbn. rewrite Hg.
  rewrite (in_range_guard _ _ Hk' Hne).
  replace (findSelectedTab (with_activeIndex (Some k) s)) with (findSelectedTab s)
    by reflexivity.
  rewrite Hc. cbn.
  now rewrite (tab_at_negative _ _ Hk).
Qed.

(** An index at or past the end, or no index, changes nothing but the field. *)
Lemma set_activeIndex_past_end s val :
  preventActiveIndexPropagation s = false ->
  match val with
  | Some k => (Z.of_nat (length (tabs s)) <= k)%Z
  | None => True
  end ->
  set_activeIndex val s = Ok tt (with_activeIndex val s).
Proof.
  intros Hg Hk.
  unfold set_activeIndex, bind, modify, get. cbn. rewrite Hg.
  destruct val as [k|]; [|reflexivity].
  apply Z.ltb_ge in Hk. rewrite Hk. now rewrite andb_false_r.
Qed.

(** C10, amended: with no panel selected and the guard flag not pending,
    assigning an in-range index to [activeIndex] runs into the [null]
    returned by [findSelectedTab]: the setter throws a [TypeError], no panel
    is touched and the target panel stays unselected. *)
Theorem activeIndex_setter_needs_a_selected_panel s k :
  preventActiveIndexPropagation s = false ->
  none_selected s ->
  (0 <= k < Z.of_nat (length (tabs s)))%Z ->
  set_activeIndex (Some k) s = Throw TypeError (with_activeIndex (Some k) s) /\
  heap (final (set_activeIndex (Some k) s)) = heap s /\
  (forall target, tab_at k s = Some target ->
     is_selected (final (set_activeIndex (Some k) s)) target = false).
Proof.
  intros Hg Hn Hk.
  assert (E : set_activeIndex (Some k) s = Throw TypeError (with_activeIndex (Some k) s)).
  { apply set_activeIndex_unselected; try assumption; try lia.
    exact (range_nonempty _ _ Hk). }
  rewrite E. repeat split.
  intros target Ht. cbn. apply Hn. exact (tab_at_in _ _ _ Ht).
Qed.

Lemma activeIndex_setter_needs_a_selected_panel_witness :
  preventActiveIndexPropagation three_tabs_unselected = false /\
  none_selected three_tabs_unselected /\
  threw (set_activeIndex (Some 1%Z) three_tabs_unselected) = true /\
  is_selected (final (set_activeIndex (Some 1%Z) three_tabs_unselected)) 1 = false.
Proof.
  assert (Hn : none_selected three_tabs_unselected).
  { intros p Hp. vm_compute in Hp.
    destruct Hp as [<-|[<-|[<-|[]]]]; reflexivity. }
  assert (Hk : (0 <= 1 < Z.of_nat (length (tabs three_tabs_unselected)))%Z)
    by (split; [intro H; discriminate H | reflexivity]).
  destruct (activeIndex_setter_needs_a_selected_panel
              three_tabs_unselected 1%Z eq_refl Hn Hk) as [E [_ Ht]].
  split; [reflexivity|]. split; [exact Hn|]. split.
  - rewrite E. reflexivity.
  - apply Ht. reflexivity.
Defined.

(** C10 as stated fails: in [unselected_guard_pending] no panel is selected
    and index 0 is in range, but the guard flag left by [open] is pending, so
    the assignment returns normally: it stores the value, clears the flag and
    never reaches [findSelectedTab]. *)
Lemma activeIndex_setter_guard_pending_counterexample :
  tabs unselected_guard_pending = [0; 1; 2] /\
  map (is_selected unselected_guard_pending) [0; 1; 2] = [false; false; false] /\
  preventActiveIndexPropagation unselected_guard_pending = true /\
  threw (set_activeIndex (Some 0%Z) unselected_guard_pending) = false /\
  _activeIndex (final (set_activeIndex (Some 0%Z) unselected_guard_pending)) = Some 0%Z /\
  map (is_selected (final (set_activeIndex (Some 0%Z) unselected_guard_pending)))
      [0; 1; 2] = [false; false; false].
Proof. repeat split. Qed.

Lemma find_selected_exists s p :
  In p (tabs s) -> is_selected s p = true -> exists c, findSelectedTab s = Some c.
Proof.
  intros Hin Hs. destruct (findSelectedTab s) eqn:E; [eauto|].
  apply findSelectedTab_none in E. rewrite (E p Hin) in Hs. discriminate.
Qed.

Lemma only_one_selected s target :
  (forall q, In q (tabs s) -> q <> target -> is_selected s q = false) ->
  exclusive s.
Proof.
  intros H p q Hp Hq Sp Sq.
  destruct (Nat.eq_dec p target) as [->|Np];
    [|rewrite (H p Hp Np) in Sp; discriminate].
  destruct (Nat.eq_dec q target) as [->|Nq];
    [reflexivity|rewrite (H q Hq Nq) in Sq; discriminate].
Qed.

(** Deselecting the panel found by [findSelectedTab] and selecting [target]
    leaves [target] as the only selected panel of an exclusive state. *)
Lemma reselect_exclusive s cur target q :
  exclusive s -> findSelectedTab s = Some cur ->
  In q (tabs s) -> q <> target ->
  selected (heap (set_selected target true (set_selected cur false s)) q) = false.
Proof.
  intros Hx Hc Hq Hne.
  rewrite selected_set_selected.
  apply Nat.eqb_neq in Hne. rewrite Hne.
  rewrite selected_set_selected.
  destruct (Nat.eqb q cur) eqn:E; [reflexivity|].
  apply Nat.eqb_neq in E.
  destruct (selected (heap s q)) eqn:S; [|reflexivity].
  exfalso. apply E. exact (exclusive_find s cur q Hx Hc Hq S).
Qed.

(** Where the assignment does move the selection: in a state in which
    exactly one panel of [tabs] is selected and the guard flag is not
    pending, assigning an index [k] in range returns normally, leaves
    [tabs[k]] selected and every other panel of [tabs] unselected. *)
Theorem activeIndex_setter_selects_exactly s k target cur :
  preventActiveIndexPropagation s = false ->
  tab_at k s = Some target ->
  is_disabled s target = false ->
  In cur (tabs s) -> is_selected s cur = true -> exclusive s ->
  threw (set_activeIndex (Some k) s) = false /\
  tabs (final (set_activeIndex (Some k) s)) = tabs s /\
  is_selected (final (set_activeIndex (Some k) s)) target = true /\
  (forall q, In q (tabs s) -> q <> target ->
     is_selected (final (set_activeIndex (Some k) s)) q = false).
Proof.
  intros Hg Ht _ Hin Hs Hx.
  destruct (find_selected_exists s cur Hin Hs) as [c Hc].
  rewrite (set_activeIndex_in_range s k c target Hg Hc Ht).
  unfold is_selected. cbn [final threw].
  rewrite heap_scroll_requested, tabs_scroll_requested. cbn.
  split; [reflexivity|]. split; [now rewrite !tabs_set_selected|]. split.
  - rewrite selected_set_selected. now rewrite Nat.eqb_refl.
  - intros q Hq Hne.
    apply (reselect_exclusive (with_activeIndex (Some k) s) c target q);
      assumption.
Qed.

Lemma activeIndex_setter_selects_exactly_witness :
  is_selected (final (set_activeIndex (Some 2%Z) three_tabs)) 2 = true /\
  is_selected (final (set_activeIndex (Some 2%Z) three_tabs)) 0 = false /\
  is_selected (final (set_activeIndex (Some 2%Z) three_tabs)) 1 = false.
Proof.
  assert (Hx : exclusive three_tabs).
  { apply (only_one_selected three_tabs 0). intros q Hq Hne.
    vm_compute in Hq. destruct Hq as [<-|[<-|[<-|[]]]];
      [now elim Hne|reflexivity|reflexivity]. }
  assert (Hin : In 0 (tabs three_tabs)) by (vm_compute; auto).
  destruct (activeIndex_setter_selects_exactly three_tabs 2%Z 2 0
              eq_refl eq_refl eq_refl Hin eq_refl Hx) as [_ [_ [H2 Ho]]].
  split; [exact H2|].
  split; apply Ho; try (vm_compute; auto; fail); discriminate.
Defined.

(** C5: in [three_tabs_unselected] no panel is selected, index 1 is in range,
    its panel is enabled and the guard flag is not pending.  The assignment
    [activeIndex = 1] writes [selected = false] through the [null] that
    [findSelectedTab] returns, which [open] and [initTabs] test for and the
    setter does not: it throws, and panel 1 is not selected afterwards. *)
Theorem activeIndex_setter_throws_with_nothing_selected :
  map (is_selected three_tabs_unselected) [0; 1; 2] = [false; false; false] /\
  (0 <= 1 < Z.of_nat (length (tabs three_tabs_unselected)))%Z /\
  tab_at 1%Z three_tabs_unselected = Some 1 /\
  is_disabled three_tabs_unselected 1 = false /\
  preventActiveIndexPropagation three_tabs_unselected = false /\
  threw (set_activeIndex (Some 1%Z) three_tabs_unselected) = true /\
  map (is_selected (final (set_activeIndex (Some 1%Z) three_tabs_unselected)))
      [0; 1; 2] = [false; false; false].
Proof.
  split; [reflexivity|].
  split; [split; [intro H; discriminate H | reflexivity]|].
  repeat split; reflexivity.
Qed.

(** ** Subscribers *)

Lemma passive_no_subscribers : passive no_subscribers.
Proof. constructor; intros; split; reflexivity. Qed.

Lemma passive_write_back_subscriber : passive write_back_subscriber.
Proof.
  constructor; try (intros; split; reflexivity).
  intros i s Hg. cbn. unfold write_back.
  rewrite (set_activeIndex_pending (Some i) s Hg). split; reflexivity.
Qed.

Lemma silent_no_subscribers : silent no_subscribers.
Proof. constructor; intros; reflexivity. Qed.


(** ** open *)

Lemma preventDefault_run event s :
  preventDefault event s = Ok tt (default_prevented event s).
Proof. destruct event; reflexivity. Qed.

Lemma heap_default_prevented event s : heap (default_prevented event s) = heap s.
Proof. destruct event; reflexivity. Qed.

Lemma tabs_default_prevented event s : tabs (default_prevented event s) = tabs s.
Proof. destruct event; reflexivity. Qed.

Lemma notifications_default_prevented event s :
  notifications (effects (default_prevented event s)) = notifications (effects s).
Proof.
  destruct event; [|reflexivity]. cbn. unfold notifications.
  rewrite filter_app. cbn. apply app_nil_r.
Qed.

Lemma open_disabled subs event tab s :
  is_disabled s tab = true ->
  open subs event tab s = Ok tt (default_prevented event s).
Proof.
  unfold is_disabled. intros H. unfold open, bind, get. cbn. rewrite H.
  apply preventDefault_run.
Qed.

Lemma open_selected subs event tab s :
  is_disabled s tab = false -> is_selected s tab = true ->
  open subs event tab s = Ok tt (default_prevented event s).
Proof.
  unfold is_disabled, is_selected. intros Hd Hs.
  unfold open, bind, get. cbn. rewrite Hd, Hs. cbn.
  apply preventDefault_run.
Qed.

Lemma open_unselected subs event tab s :
  is_disabled s tab = false -> is_selected s tab = false ->
  let m := selection_moved_to tab s in
  let index := findTabIndex tab m in
  open subs event tab s =
  Ok tt (default_prevented event
          (scroll_requested index
            (on_onChange subs (mkChange event index)
              (perform (EmitOnChange (mkChange event index))
                (on_activeIndexChange subs index
                  (perform (EmitActiveIndexChange index)
                    (with_prevent true m))))))).
Proof.
  unfold is_disabled, is_selected. intros Hd Hs. cbv zeta.
  unfold open, bind, get. cbn. rewrite Hd, Hs. cbn.
  unfold selection_moved_to, deselect_current.
  destruct (findSelectedTab s); cbn; rewrite updateScrollBar_run;
    apply preventDefault_run.
Qed.

(** C4: [open] on a panel that is already selected and not disabled does
    nothing but [preventDefault] on the event, whatever the subscribers are:
    the panel store is unchanged and no notification (change or
    active-index change) is added to the effects. *)
Theorem open_on_selected_panel_is_silent subs event tab s :
  is_disabled s tab = false -> is_selected s tab = true ->
  open subs event tab s = Ok tt (default_prevented event s) /\
  heap (final (open subs event tab s)) = heap s /\
  notifications (effects (final (open subs event tab s))) =
  notifications (effects s).
Proof.
  intros Hd Hs. rewrite (open_selected subs event tab s Hd Hs). cbn.
  split; [reflexivity|]. split.
  - apply heap_default_prevented.
  - apply notifications_default_prevented.
Qed.

Lemma open_on_selected_panel_is_silent_witness :
  heap (final (open write_back_subscriber (Some 7) 0 three_tabs)) = heap three_tabs /\
  notifications (effects (final (open write_back_subscriber (Some 7) 0 three_tabs))) =
  notifications (effects three_tabs).
Proof.
  exact (proj2 (open_on_selected_panel_is_silent
                  write_back_subscriber (Some 7) 0 three_tabs eq_refl eq_refl)).
Defined.

Lemma tabs_deselect_current s : tabs (deselect_current s) = tabs s.
Proof.
  unfold deselect_current. destruct (findSelectedTab s); [|reflexivity].
  apply tabs_set_selected.
Qed.

Lemma tabs_selection_moved_to tab s : tabs (selection_moved_to tab s) = tabs s.
Proof.
  unfold selection_moved_to. rewrite tabs_set_selected. cbn.
  apply tabs_deselect_current.
Qed.

Lemma selected_selection_moved_to tab s q :
  is_selected (selection_moved_to tab s) q =
  if Nat.eqb q tab then true
  else match findSelectedTab s with
       | Some cur => if Nat.eqb q cur then false else is_selected s q
       | None => is_selected s q
       end.
Proof.
  unfold is_selected, selection_moved_to, deselect_current.
  rewrite selected_set_selected. destruct (Nat.eqb q tab); [reflexivity|].
  cbn. destruct (findSelectedTab s); [|reflexivity].
  apply selected_set_selected.
Qed.

Lemma closed_selection_moved_to tab s q :
  is_closed (selection_moved_to tab s) q = is_closed s q.
Proof.
  unfold is_closed, selection_moved_to, deselect_current.
  rewrite closed_set_selected. cbn.
  destruct (findSelectedTab s); [|reflexivity]. apply closed_set_selected.
Qed.

Lemma effects_set_selected_notifications p v s :
  notifications (effects (set_selected p v s)) = notifications (effects s).
Proof.
  unfold set_selected, set_panel. destruct v; cbn;
    destruct (loaded _); cbn; try reflexivity;
    unfold notifications; rewrite filter_app; cbn; apply app_nil_r.
Qed.


Lemma exclusive_selection_moved_to tab s :
  exclusive s ->
  forall q, In q (tabs s) -> q <> tab -> is_selected (selection_moved_to tab s) q = false.
Proof.
  intros Hx q Hq Hne. rewrite selected_selection_moved_to.
  apply Nat.eqb_neq in Hne. rewrite Hne.
  destruct (findSelectedTab s) as [cur|] eqn:Hc.
  - destruct (Nat.eqb q cur) eqn:E; [reflexivity|].
    apply Nat.eqb_neq in E.
    destruct (is_selected s q) eqn:S; [|reflexivity].
    exfalso. apply E. exact (exclusive_find s cur q Hx Hc Hq S).
  - exact (findSelectedTab_none s Hc q Hq).
Qed.



Lemma findTabIndex_same_tabs tab s s' :
  tabs s' = tabs s -> findTabIndex tab s' = findTabIndex tab s.
Proof. intros E. unfold findTabIndex. now rewrite E. Qed.


Lemma header_actions_prefix i0 l h k tab :
  nth_error l k = Some tab ->
  (forall j t, j <= k -> nth_error l j = Some t -> closed (h t) = false) ->
  nth_error (header_actions (render_tabs i0 l h)) k =
  Some (HeaderAction (i0 + k) (disabled (h tab)) (selected (h tab))).
Proof.
  revert i0 k. induction l as [|a l IH]; intros i0 k Hk Hopen.
  - destruct k; discriminate.
  - cbn [render_tabs].
    rewrite (Hopen 0 a (Nat.le_0_l k) eq_refl). cbn.
    destruct k as [|k]; cbn in Hk.
    + injection Hk as ->. now rewrite Nat.add_0_r.
    + cbn. replace (i0 + S k) with (S i0 + k) by lia.
      apply IH; [exact Hk|].
      intros j t Hj Ht. apply (Hopen (S j) t); [lia|exact Ht].
Qed.





(** The same call of [open], evaluated. *)
Example open_third_tab_effects :
  effects (final (open write_back_subscriber (Some 7) 2 three_tabs)) =
  effects three_tabs ++
  [DetectChanges 2; EmitActiveIndexChange 2%Z;
   EmitOnChange (mkChange (Some 7) 2%Z); ScrollIntoView 2; PreventDefault 7] /\
  map (is_selected (final (open write_back_subscriber (Some 7) 2 three_tabs))) [0; 1; 2] =
  [false; false; true] /\
  _activeIndex (final (open write_back_subscriber (Some 7) 2 three_tabs)) = Some 2%Z /\
  preventActiveIndexPropagation (final (open write_back_subscriber (Some 7) 2 three_tabs)) = false.
Proof. repeat split. Qed.


(** In the same state a request for index 1 goes to the header at position 1
    of the strip, which is the header of panel 2. *)
Example scroll_request_after_a_closed_panel :
  is_selected (final (set_activeIndex (Some 0%Z) first_closed)) 0 = true /\
  effects (final (open no_subscribers (Some 7) 1
                    (final (set_activeIndex (Some 0%Z) first_closed)))) =
  effects (final (set_activeIndex (Some 0%Z) first_closed)) ++
  [EmitActiveIndexChange 1%Z; EmitOnChange (mkChange (Some 7) 1%Z);
   ScrollIntoView 2; PreventDefault 7].
Proof. repeat split. Qed.

(** ** closeTab and close *)

Lemma closeTab_loop_find tab l s :
  is_disabled s tab = false ->
  closeTab_loop tab l s =
  match find (fun p => negb (closed (heap s p))) l with
  | Some p => set_selected p true s
  | None => s
  end.
Proof.
  unfold is_disabled. intros Hd.
  induction l as [|a l IH]; cbn; [reflexivity|].
  rewrite Hd. cbn. rewrite andb_true_r.
  destruct (closed (heap s a)); cbn; [exact IH|reflexivity].
Qed.

Lemma closeTab_disabled tab s :
  is_disabled s tab = true -> closeTab tab s = Ok tt s.
Proof.
  unfold is_disabled. intros H. unfold closeTab, bind, get. cbn. now rewrite H.
Qed.

Lemma closeTab_unselected tab s :
  is_disabled s tab = false -> is_selected s tab = false ->
  closeTab tab s = Ok tt (set_closed tab true s).
Proof.
  unfold is_disabled, is_selected. intros Hd Hs.
  unfold closeTab, bind, get, modify, ret. cbn. now rewrite Hd, Hs.
Qed.

Lemma closeTab_selected tab s :
  is_disabled s tab = false -> is_selected s tab = true ->
  closeTab tab s =
  Ok tt (set_closed tab true
          (closeTab_loop tab (tabs s)
            (set_selected tab false (with_tabChanged true s)))).
Proof.
  unfold is_disabled, is_selected. intros Hd Hs.
  unfold closeTab, bind, get, modify, ret. cbn. rewrite Hd, Hs.
  now rewrite tabs_set_selected.
Qed.

(** What the selected branch of [closeTab] selects: the first panel of [tabs]
    whose [closed] flag is still false when the loop runs.  Neither the
    candidate's [disabled] flag nor its being the panel under closure is
    looked at. *)
Lemma closeTab_selected_picks tab s :
  is_disabled s tab = false -> is_selected s tab = true ->
  closeTab tab s =
  Ok tt (set_closed tab true
          (match find (fun p => negb (is_closed s p)) (tabs s) with
           | Some p => set_selected p true
                         (set_selected tab false (with_tabChanged true s))
           | None => set_selected tab false (with_tabChanged true s)
           end)).
Proof.
  intros Hd Hs. rewrite (closeTab_selected tab s Hd Hs).
  rewrite closeTab_loop_find.
  - f_equal. f_equal.
    assert (E : forall l,
      find (fun p => negb (closed (heap (set_selected tab false (with_tabChanged true s)) p))) l =
      find (fun p => negb (is_closed s p)) l).
    { induction l as [|a l IH]; cbn; [reflexivity|].
      rewrite closed_set_selected. cbn. unfold is_closed at 1.
      destruct (closed (heap s a)); cbn; [exact IH|reflexivity]. }
    now rewrite E.
  - unfold is_disabled. now rewrite disabled_set_selected.
Qed.

(** Scenario 3 of the specification: closing the selected panel 1 of three
    leaves it closed and unselected and selects panel 0. *)
Example closeTab_second_of_three :
  is_selected three_tabs_second 1 = true /\
  threw (closeTab 1 three_tabs_second) = false /\
  is_closed (final (closeTab 1 three_tabs_second)) 1 = true /\
  map (is_selected (final (closeTab 1 three_tabs_second))) [0; 1; 2] =
  [true; false; false].
Proof. repeat split. Qed.

(** C1: closing the selected panel when it is the first panel of [tabs] that
    is not closed.  The loop runs before [tab.closed = true] and does not
    exclude [tab], so it selects the panel under closure again: panel 0 ends
    up closed and selected, and neither remaining panel is selected. *)
Theorem closeTab_first_tab_selects_itself :
  is_selected three_tabs 0 = true /\
  map (is_disabled three_tabs) [0; 1; 2] = [false; false; false] /\
  map (is_closed three_tabs) [0; 1; 2] = [false; false; false] /\
  threw (closeTab 0 three_tabs) = false /\
  is_closed (final (closeTab 0 three_tabs)) 0 = true /\
  map (is_selected (final (closeTab 0 three_tabs))) [0; 1; 2] =
  [true; false; false].
Proof. repeat split. Qed.

(** The same loop tests [tab.disabled], not the candidate's flag: closing the
    selected panel 1 selects the disabled panel 0. *)
Example closeTab_selects_disabled_candidate :
  is_disabled first_disabled 0 = true /\
  is_selected first_disabled 1 = true /\
  map (is_selected (final (closeTab 1 first_disabled))) [0; 1; 2] =
  [true; false; false].
Proof. repeat split. Qed.

Lemma close_disabled subs event tab s :
  is_disabled s tab = true ->
  let e := mkClose event (findTabIndex tab s)
                   (if controlClose s then Some tab else None) in
  close subs event tab s =
  propagation_stopped event (on_onClose subs e (perform (EmitOnClose e) s)).
Proof.
  intros Hd. cbv zeta. unfold close, bind, get, emit_onClose, modify. cbn.
  destruct (controlClose s) eqn:C.
  - cbn. destruct event; reflexivity.
  - rewrite (closeTab_disabled tab s Hd). cbn. destruct event; reflexivity.
Qed.

(** C7, amended: [close] on a disabled panel changes no panel (it is not
    marked closed and the selection stays as it was) and leaves [tabs] alone,
    but it still emits the close notification [{originalEvent, index}], with
    the [close] continuation in controlled mode; subscribers are assumed not
    to touch the panels themselves. *)
Theorem close_on_disabled_panel_still_notifies subs event tab s :
  passive subs ->
  is_disabled s tab = true ->
  let e := mkClose event (findTabIndex tab s)
                   (if controlClose s then Some tab else None) in
  close subs event tab s =
  propagation_stopped event (on_onClose subs e (perform (EmitOnClose e) s)) /\
  heap (final (close subs event tab s)) = heap s /\
  tabs (final (close subs event tab s)) = tabs s.
Proof.
  intros Hp Hd e.
  assert (E := close_disabled subs event tab s Hd). cbv zeta in E.
  fold e in E. rewrite E.
  destruct (passive_close subs Hp e (perform (EmitOnClose e) s)) as [Hh Ht].
  split; [reflexivity|].
  destruct event; cbn; rewrite ?Hh, ?Ht; split; reflexivity.
Qed.

Lemma close_on_disabled_panel_still_notifies_witness :
  is_disabled second_disabled 1 = true /\
  close no_subscribers (Some 7) 1 second_disabled =
  Ok tt (perform (StopPropagation 7)
          (perform (EmitOnClose (mkClose (Some 7) 1%Z None)) second_disabled)) /\
  heap (final (close no_subscribers (Some 7) 1 second_disabled)) = heap second_disabled.
Proof.
  destruct (close_on_disabled_panel_still_notifies no_subscribers (Some 7) 1
              second_disabled passive_no_subscribers eq_refl) as [E [Hh _]].
  split; [reflexivity|]. split; [exact E|exact Hh].
Defined.

(** C7 as stated fails: panel 1 is disabled, and [close] on it appends a close
    notification to the effects. *)
Lemma close_on_disabled_panel_counterexample :
  is_disabled second_disabled 1 = true /\
  controlClose second_disabled = false /\
  notifications (effects second_disabled) = [] /\
  notifications (effects (final (close no_subscribers (Some 7) 1 second_disabled))) =
  [EmitOnClose (mkClose (Some 7) 1%Z None)].
Proof. repeat split. Qed.

(** ** initTabs *)

Lemma initTabs_keeps_selection panels s cur :
  findSelectedTab (with_tabs panels s) = Some cur ->
  initTabs panels s = Ok tt (perform MarkForCheck (with_tabs panels s)).
Proof.
  intros H. unfold initTabs, bind, modify, get. cbn. now rewrite H.
Qed.

Lemma initTabs_empty s :
  initTabs [] s = Ok tt (perform MarkForCheck (with_tabs [] s)).
Proof. reflexivity. Qed.

Lemma initTabs_selects panels s target :
  none_selected (with_tabs panels s) ->
  tab_at (initial_index s panels) (with_tabs panels s) = Some target ->
  initTabs panels s =
  Ok tt (perform MarkForCheck
          (with_tabChanged true (set_selected target true (with_tabs panels s)))).
Proof.
  intros Hn Ht.
  assert (Hne : panels <> []).
  { intros ->. apply tab_at_in in Ht. destruct Ht. }
  unfold initTabs, bind, modify, get. cbn.
  rewrite (none_selected_find _ Hn).
  destruct panels as [|a l]; [congruence|]. cbn [length Nat.eqb negb].
  unfold initial_index in Ht. cbn [length] in Ht.
  destruct (_activeIndex s) as [i|].
  - destruct (i <? Z.of_nat (S (length l)))%Z; rewrite Ht; reflexivity.
  - rewrite Ht. reflexivity.
Qed.

Lemma initTabs_throws panels s :
  none_selected (with_tabs panels s) -> panels <> [] ->
  tab_at (initial_index s panels) (with_tabs panels s) = None ->
  initTabs panels s = Throw TypeError (with_tabs panels s).
Proof.
  intros Hn Hne Ht.
  unfold initTabs, bind, modify, get. cbn.
  rewrite (none_selected_find _ Hn).
  destruct panels as [|a l]; [congruence|]. cbn [length Nat.eqb negb].
  unfold initial_index in Ht. cbn [length] in Ht.
  destruct (_activeIndex s) as [i|].
  - destruct (i <? Z.of_nat (S (length l)))%Z; rewrite Ht; reflexivity.
  - rewrite Ht. reflexivity.
Qed.

(** With nothing selected and [0 <= activeIndex < tabs.length], the panel at
    [activeIndex] is selected. *)
Lemma initTabs_in_range panels s i target :
  none_selected (with_tabs panels s) ->
  _activeIndex s = Some i ->
  tab_at i (with_tabs panels s) = Some target ->
  threw (initTabs panels s) = false /\
  is_selected (final (initTabs panels s)) target = true /\
  tabChanged (final (initTabs panels s)) = true.
Proof.
  intros Hn Hi Ht.
  assert (Hlt : (i <? Z.of_nat (length panels))%Z = true).
  { unfold tab_at in Ht. cbn in Ht. destruct (i <? 0)%Z eqn:E; [discriminate|].
    assert (Z.to_nat i < length panels)%nat by (apply nth_error_Some; congruence).
    apply Z.ltb_ge in E. apply Z.ltb_lt. lia. }
  rewrite (initTabs_selects panels s target Hn).
  - cbn. unfold is_selected. cbn. rewrite selected_set_selected.
    now rewrite Nat.eqb_refl.
  - unfold initial_index. now rewrite Hi, Hlt.
Qed.

(** With nothing selected and [activeIndex] unset or at least [tabs.length],
    panel 0 is selected. *)
Lemma initTabs_falls_back panels s first :
  none_selected (with_tabs panels s) ->
  match _activeIndex s with
  | Some i => (Z.of_nat (length panels) <= i)%Z
  | None => True
  end ->
  tab_at 0%Z (with_tabs panels s) = Some first ->
  threw (initTabs panels s) = false /\
  is_selected (final (initTabs panels s)) first = true /\
  tabChanged (final (initTabs panels s)) = true.
Proof.
  intros Hn Hi Ht.
  rewrite (initTabs_selects panels s first Hn).
  - cbn. unfold is_selected. cbn. rewrite selected_set_selected.
    now rewrite Nat.eqb_refl.
  - unfold initial_index. destruct (_activeIndex s) as [i|]; [|exact Ht].
    apply Z.ltb_ge in Hi. now rewrite Hi.
Qed.

(** A negative [activeIndex] passes [this.tabs.length > this.activeIndex]; the
    write through [this.tabs[this.activeIndex]] throws before anything is
    selected and before the dirty flag is set. *)
Lemma initTabs_negative panels s i :
  none_selected (with_tabs panels s) -> panels <> [] ->
  _activeIndex s = Some i -> (i < 0)%Z ->
  initTabs panels s = Throw TypeError (with_tabs panels s).
Proof.
  intros Hn Hne Hi Hneg.
  apply initTabs_throws; try assumption.
  unfold initial_index. rewrite Hi.
  assert (E : (i <? Z.of_nat (length panels))%Z = true) by (apply Z.ltb_lt; lia).
  rewrite E. now apply tab_at_negative.
Qed.

(** C6: three fresh panels, none selected, [activeIndex = -1].  [initTabs]
    does not fall back to panel 0: it throws, no panel is selected and the
    dirty flag stays clear. *)
Theorem initTabs_negative_activeIndex_throws :
  threw (initTabs [0; 1; 2] (mount (fun _ => fresh) (Some (-1)%Z) false)) = true /\
  map (is_selected
         (final (initTabs [0; 1; 2] (mount (fun _ => fresh) (Some (-1)%Z) false))))
      [0; 1; 2] = [false; false; false] /\
  tabChanged (final (initTabs [0; 1; 2] (mount (fun _ => fresh) (Some (-1)%Z) false)))
  = false.
Proof. repeat split. Qed.

(** The in-range and the past-the-end cases of the same scenario. *)
Example initTabs_three_panels :
  map (is_selected (final (initTabs [0; 1; 2] (mount (fun _ => fresh) (Some 2%Z) false))))
      [0; 1; 2] = [false; false; true] /\
  map (is_selected (final (initTabs [0; 1; 2] (mount (fun _ => fresh) (Some 3%Z) false))))
      [0; 1; 2] = [true; false; false] /\
  map (is_selected (final (initTabs [0; 1; 2] (mount (fun _ => fresh) None false))))
      [0; 1; 2] = [true; false; false].
Proof. repeat split. Qed.

(** ** Every way a call can end *)

Lemma set_activeIndex_cases val s :
  let s0 := with_activeIndex val s in
  final (set_activeIndex val s) = with_prevent false s0 \/
  final (set_activeIndex val s) = s0 \/
  (exists cur, findSelectedTab s = Some cur /\
     final (set_activeIndex val s) = set_selected cur false s0) \/
  (exists cur target k, findSelectedTab s = Some cur /\
     tab_at k s = Some target /\
     final (set_activeIndex val s) =
     scroll_requested k
       (with_tabChanged true (set_selected target true (set_selected cur false s0)))).
Proof.
  cbv zeta.
  destruct (preventActiveIndexPropagation s) eqn:Hg.
  { left. now rewrite (set_activeIndex_pending val s Hg). }
  destruct val as [k|];
    [|right; left; now rewrite (set_activeIndex_past_end s None Hg I)].
  destruct (Z.lt_ge_cases k (Z.of_nat (length (tabs s)))) as [Hlt|Hge];
    [|right; left; now rewrite (set_activeIndex_past_end s (Some k) Hg Hge)].
  destruct (tabs s) as [|a l] eqn:Hl.
  { right; left. unfold set_activeIndex, bind, modify, get. cbn.
    rewrite Hg, Hl. reflexivity. }
  assert (Hne : tabs s <> []) by (rewrite Hl; discriminate).
  rewrite <- Hl in Hlt.
  destruct (findSelectedTab s) as [cur|] eqn:Hc.
  - destruct (Z.lt_ge_cases k 0) as [Hneg|Hpos].
    + right; right; left. exists cur. split; [reflexivity|].
      now rewrite (set_activeIndex_negative s k cur Hg Hc Hneg).
    + destruct (tab_at_in_range k s (conj Hpos Hlt)) as [target Ht].
      right; right; right. exists cur, target, k.
      split; [reflexivity|]. split; [exact Ht|].
      now rewrite (set_activeIndex_in_range s k cur target Hg Hc Ht).
  - right; left.
    now rewrite (set_activeIndex_unselected s k Hg (findSelectedTab_none s Hc) Hlt Hne).
Qed.

Lemma initTabs_cases panels s :
  let s0 := with_tabs panels s in
  final (initTabs panels s) = perform MarkForCheck s0 \/
  final (initTabs panels s) = s0 \/
  (exists target, none_selected s0 /\
     final (initTabs panels s) =
     perform MarkForCheck (with_tabChanged true (set_selected target true s0))).
Proof.
  cbv zeta.
  destruct (findSelectedTab (with_tabs panels s)) as [cur|] eqn:Hc.
  { left. now rewrite (initTabs_keeps_selection panels s cur Hc). }
  apply findSelectedTab_none in Hc.
  destruct panels as [|a l]; [left; reflexivity|].
  destruct (tab_at (initial_index s (a :: l)) (with_tabs (a :: l) s))
    as [target|] eqn:Ht.
  - right; right. exists target. split; [exact Hc|].
    now rewrite (initTabs_selects (a :: l) s target Hc Ht).
  - right; left.
    rewrite (initTabs_throws (a :: l) s Hc); [reflexivity|discriminate|exact Ht].
Qed.

Lemma closeTab_cases tab s :
  final (closeTab tab s) = s \/
  (is_selected s tab = false /\ final (closeTab tab s) = set_closed tab true s) \/
  (is_selected s tab = true /\
   exists s2,
     (s2 = set_selected tab false (with_tabChanged true s) \/
      exists p, In p (tabs s) /\ is_closed s p = false /\
        s2 = set_selected p true (set_selected tab false (with_tabChanged true s))) /\
     final (closeTab tab s) = set_closed tab true s2).
Proof.
  destruct (is_disabled s tab) eqn:Hd.
  { left. now rewrite (closeTab_disabled tab s Hd). }
  destruct (is_selected s tab) eqn:Hs.
  - right; right. split; [reflexivity|].
    rewrite (closeTab_selected_picks tab s Hd Hs). cbn.
    destruct (find (fun p => negb (is_closed s p)) (tabs s)) as [p|] eqn:F.
    + apply find_some in F. destruct F as [Hin Hc].
      eexists. split; [|reflexivity]. right. exists p.
      split; [exact Hin|]. split; [|reflexivity].
      now apply negb_true_iff in Hc.
    + eexists. split; [|reflexivity]. now left.
  - right; left. split; [reflexivity|].
    now rewrite (closeTab_unselected tab s Hd Hs).
Qed.

Lemma open_store subs event tab s :
  passive subs ->
  tabs (final (open subs event tab s)) = tabs s /\
  (heap (final (open subs event tab s)) = heap s \/
   is_selected s tab = false /\
   heap (final (open subs event tab s)) = heap (selection_moved_to tab s)).
Proof.
  intros Hp.
  destruct (is_disabled s tab) eqn:Hd.
  { rewrite (open_disabled subs event tab s Hd). cbn.
    rewrite tabs_default_prevented, heap_default_prevented. auto. }
  destruct (is_selected s tab) eqn:Hs.
  { rewrite (open_selected subs event tab s Hd Hs). cbn.
    rewrite tabs_default_prevented, heap_default_prevented. auto. }
  assert (E := open_unselected subs event tab s Hd Hs). cbv zeta in E.
  rewrite E. cbn.
  rewrite tabs_default_prevented, heap_default_prevented.
  rewrite tabs_scroll_requested, heap_scroll_requested.
  set (m := selection_moved_to tab s).
  set (i := findTabIndex tab m).
  set (a := perform (EmitActiveIndexChange i) (with_prevent true m)).
  destruct (passive_index subs Hp i a eq_refl) as [Hh1 Ht1].
  destruct (passive_change subs Hp (mkChange event i)
              (perform (EmitOnChange (mkChange event i)) (on_activeIndexChange subs i a)))
    as [Hh2 Ht2].
  rewrite Ht2, Hh2. cbn. rewrite Ht1, Hh1. cbn.
  split; [apply tabs_selection_moved_to|]. right. auto.
Qed.

(** ** At most one selected panel *)

Lemma exclusive_same_store s s' :
  heap s' = heap s -> tabs s' = tabs s -> exclusive s -> exclusive s'.
Proof.
  unfold exclusive, is_selected. intros Hh Ht Hx p q.
  rewrite Hh, Ht. apply Hx.
Qed.

Lemma none_selected_exclusive s : none_selected s -> exclusive s.
Proof.
  intros Hn p q Hp _ Sp _. rewrite (Hn p Hp) in Sp. discriminate.
Qed.

Lemma exclusive_select_in_unselected s target :
  none_selected s -> exclusive (set_selected target true s).
Proof.
  intros Hn. apply (only_one_selected _ target).
  intros q Hq Hne. rewrite tabs_set_selected in Hq.
  unfold is_selected. rewrite selected_set_selected.
  apply Nat.eqb_neq in Hne. rewrite Hne. exact (Hn q Hq).
Qed.

Lemma exclusive_deselect_found s cur :
  exclusive s -> findSelectedTab s = Some cur ->
  none_selected (set_selected cur false s).
Proof.
  intros Hx Hc q Hq. rewrite tabs_set_selected in Hq.
  unfold is_selected. rewrite selected_set_selected.
  destruct (Nat.eqb q cur) eqn:E; [reflexivity|].
  apply Nat.eqb_neq in E.
  destruct (selected (heap s q)) eqn:S; [|reflexivity].
  exfalso. apply E. exact (exclusive_find s cur q Hx Hc Hq S).
Qed.

Lemma exclusive_open subs event tab s :
  passive subs -> exclusive s -> exclusive (final (open subs event tab s)).
Proof.
  intros Hp Hx.
  destruct (open_store subs event tab s Hp) as [Ht [Hh|[_ Hh]]].
  - exact (exclusive_same_store s _ Hh Ht Hx).
  - apply (exclusive_same_store (selection_moved_to tab s)).
    + exact Hh.
    + now rewrite tabs_selection_moved_to.
    + apply (only_one_selected _ tab). intros q Hq Hne.
      rewrite tabs_selection_moved_to in Hq.
      now apply exclusive_selection_moved_to.
Qed.

Lemma exclusive_set_activeIndex val s :
  exclusive s -> exclusive (final (set_activeIndex val s)).
Proof.
  intros Hx.
  assert (Hx0 : exclusive (with_activeIndex val s)) by exact Hx.
  destruct (set_activeIndex_cases val s)
    as [E|[E|[[cur [Hc E]]|[cur [target [k [Hc [Ht E]]]]]]]]; rewrite E.
  - exact Hx.
  - exact Hx.
  - apply none_selected_exclusive.
    now apply exclusive_deselect_found.
  - apply (exclusive_same_store
             (set_selected target true
                (set_selected cur false (with_activeIndex val s))));
      [now rewrite heap_scroll_requested|now rewrite tabs_scroll_requested|].
    apply exclusive_select_in_unselected.
    now apply exclusive_deselect_found.
Qed.

Lemma exclusive_initTabs panels s :
  exclusive (with_tabs panels s) -> exclusive (final (initTabs panels s)).
Proof.
  intros Hx.
  destruct (initTabs_cases panels s) as [E|[E|[target [Hn E]]]]; rewrite E.
  - exact Hx.
  - exact Hx.
  - apply (exclusive_same_store (set_selected target true (with_tabs panels s)));
      [reflexivity|reflexivity|].
    now apply exclusive_select_in_unselected.
Qed.

Lemma exclusive_set_closed tab v s : exclusive s -> exclusive (set_closed tab v s).
Proof.
  unfold exclusive, is_selected. intros Hx p q. cbn.
  rewrite !selected_set_closed. apply Hx.
Qed.

Lemma exclusive_closeTab tab s :
  In tab (tabs s) -> exclusive s -> exclusive (final (closeTab tab s)).
Proof.
  intros Hin Hx.
  destruct (closeTab_cases tab s) as [E|[[_ E]|[Hs [s2 [Hs2 E]]]]]; rewrite E.
  - exact Hx.
  - now apply exclusive_set_closed.
  - apply exclusive_set_closed.
    assert (Hn : none_selected (set_selected tab false (with_tabChanged true s))).
    { intros q Hq. rewrite tabs_set_selected in Hq. cbn in Hq.
      unfold is_selected. rewrite selected_set_selected. cbn.
      destruct (Nat.eqb q tab) eqn:Eq; [reflexivity|].
      apply Nat.eqb_neq in Eq.
      destruct (selected (heap s q)) eqn:S; [|reflexivity].
      exfalso. apply Eq. exact (Hx q tab Hq Hin S Hs). }
    destruct Hs2 as [->|[p [_ [_ ->]]]].
    + now apply none_selected_exclusive.
    + now apply exclusive_select_in_unselected.
Qed.

Lemma exclusive_exec subs o s :
  passive subs -> admissible o s -> exclusive s -> exclusive (exec subs o s).
Proof.
  intros Hp Ha Hx. destruct o as [event tab|tab|val|panels]; cbn.
  - now apply exclusive_open.
  - now apply exclusive_closeTab.
  - now apply exclusive_set_activeIndex.
  - apply exclusive_initTabs. intros p q Hp' Hq Sp Sq.
    cbn in Hp', Hq. unfold is_selected in Sp, Sq. cbn in Sp, Sq.
    destruct (Ha p Hp') as [Hpin|Hpn];
      [|unfold is_selected in Hpn; congruence].
    destruct (Ha q Hq) as [Hqin|Hqn];
      [|unfold is_selected in Hqn; congruence].
    exact (Hx p q Hpin Hqin Sp Sq).
Qed.

Lemma reachable_exclusive subs s :
  passive subs -> reachable subs s -> exclusive s.
Proof.
  intros Hp Hr. induction Hr as [h a c panels H|s o Hr IH Ha].
  - apply exclusive_initTabs. exact H.
  - now apply exclusive_exec.
Qed.

(** C2, amended: start from [initTabs] on panels of which the application declared at
    most one selected, and apply any sequence of [open], [closeTab], the
    [activeIndex] setter and [initTabs] (closeTab on panels of [tabs], a
    re-synchronised panel list made of panels already in [tabs] or unselected
    ones), with subscribers that do not touch the panels.  In every state so
    reached at most one non-closed panel of [tabs] is selected. *)
Theorem at_most_one_open_panel_selected subs s :
  passive subs -> reachable subs s -> at_most_one_open_selected s.
Proof.
  intros Hp Hr p q Hpin Hqin _ Sp _ Sq.
  exact (reachable_exclusive subs s Hp Hr p q Hpin Hqin Sp Sq).
Qed.

Lemma reachable_busy_run :
  reachable write_back_subscriber (run write_back_subscriber busy_run three_tabs).
Proof.
  unfold busy_run, run. cbn [fold_left].
  apply reach_step.
  - apply reach_step.
    + apply reach_step.
      * apply reach_step.
        -- unfold three_tabs. apply reach_init.
           intros p q _ _ Sp _. discriminate Sp.
        -- exact I.
      * vm_compute. auto.
    + exact I.
  - intros p Hp. cbn in Hp.
    destruct Hp as [<-|[<-|[<-|[]]]];
      [left; vm_compute; auto|left; vm_compute; auto|right; reflexivity].
Qed.

Lemma at_most_one_open_panel_selected_witness :
  at_most_one_open_selected (run write_back_subscriber busy_run three_tabs).
Proof.
  exact (at_most_one_open_panel_selected write_back_subscriber _
           passive_write_back_subscriber reachable_busy_run).
Defined.

Example busy_run_selection :
  tabs (run write_back_subscriber busy_run three_tabs) = [1; 2; 3] /\
  map (is_selected (run write_back_subscriber busy_run three_tabs)) [1; 2; 3] =
  [true; false; false] /\
  map (is_closed (run write_back_subscriber busy_run three_tabs)) [1; 2; 3] =
  [false; true; false].
Proof. repeat split. Qed.

(** C2 as stated fails.  [closeTab] relies on its argument being one of
    [tabs]: after a re-synchronisation has dropped the selected panel 1 and
    selected panel 2 in its place, [closeTab] on panel 1 selects panel 0 as
    well, and two panels of [tabs], neither of them closed, are selected.
    Likewise two panels declared selected by the application both stay
    selected through [initTabs], and so does a panel that is already
    selected when a re-synchronisation brings it into [tabs]. *)
Lemma two_open_panels_selected_counterexample :
  tabs dropped_panel_closed = [0; 2; 3] /\
  map (is_selected dropped_panel_closed) [0; 2; 3] = [true; true; false] /\
  map (is_closed dropped_panel_closed) [0; 2; 3] = [false; false; false] /\
  ~ at_most_one_open_selected dropped_panel_closed /\
  ~ at_most_one_open_selected
      (final (initTabs [0; 1; 2]
                (mount (fun p => mkPanel (Nat.ltb p 2) false false false) None false))) /\
  ~ at_most_one_open_selected
      (run no_subscribers [OpInitTabs [0; 1; 2; 3]]
         (final (initTabs [0; 1; 2]
                   (mount (fun p => mkPanel (Nat.eqb p 3) false false false)
                          None false)))).
Proof.
  split; [reflexivity|]. split; [reflexivity|]. split; [reflexivity|].
  split; [|split].
  - intros H.
    assert (E : 0 = 2); [|discriminate E].
    apply H; try reflexivity; vm_compute; auto.
  - intros H.
    assert (E : 0 = 1); [|discriminate E].
    apply H; try reflexivity; vm_compute; auto.
  - intros H.
    assert (E : 0 = 3); [|discriminate E].
    apply H; try reflexivity; vm_compute; auto.
Qed.

(** ** The closed flag *)

Lemma closed_set_activeIndex val s p :
  is_closed (final (set_activeIndex val s)) p = is_closed s p.
Proof.
  unfold is_closed.
  destruct (set_activeIndex_cases val s)
    as [E|[E|[[cur [Hc E]]|[cur [target [k [Hc [Ht E]]]]]]]]; rewrite E;
    rewrite ?heap_scroll_requested; cbn;
    rewrite ?closed_set_selected; reflexivity.
Qed.

Lemma closed_initTabs panels s p :
  is_closed (final (initTabs panels s)) p = is_closed s p.
Proof.
  unfold is_closed.
  destruct (initTabs_cases panels s) as [E|[E|[target [Hn E]]]]; rewrite E; cbn;
    rewrite ?closed_set_selected; reflexivity.
Qed.

Lemma closed_open subs event tab s p :
  passive subs -> is_closed (final (open subs event tab s)) p = is_closed s p.
Proof.
  intros Hp. unfold is_closed.
  destruct (open_store subs event tab s Hp) as [_ [Hh|[_ Hh]]]; rewrite Hh.
  - reflexivity.
  - apply closed_selection_moved_to.
Qed.

Lemma closed_closeTab tab s p :
  is_closed s p = true -> is_closed (final (closeTab tab s)) p = true.
Proof.
  unfold is_closed. intros Hc.
  destruct (closeTab_cases tab s) as [E|[[_ E]|[_ [s2 [Hs2 E]]]]]; rewrite E.
  - exact Hc.
  - rewrite closed_set_closed. destruct (Nat.eqb p tab); [reflexivity|exact Hc].
  - rewrite closed_set_closed. destruct (Nat.eqb p tab); [reflexivity|].
    destruct Hs2 as [->|[p' [_ [_ ->]]]]; rewrite ?closed_set_selected; exact Hc.
Qed.

Lemma closed_exec subs o s p :
  passive subs -> is_closed s p = true -> is_closed (exec subs o s) p = true.
Proof.
  intros Hp Hc. destruct o as [event tab|tab|val|panels]; cbn [exec].
  - now rewrite closed_open.
  - now apply closed_closeTab.
  - now rewrite closed_set_activeIndex.
  - now rewrite closed_initTabs.
Qed.

Lemma closed_run subs ops s p :
  passive subs -> is_closed s p = true -> is_closed (run subs ops s) p = true.
Proof.
  intros Hp. revert s. induction ops as [|o ops IH]; intros s Hc; [exact Hc|].
  cbn [run fold_left]. apply IH. now apply closed_exec.
Qed.

(** The selection loop of [closeTab] skips panels that are already closed. *)
Lemma closeTab_skips_closed tab s p :
  is_closed s p = true ->
  is_selected (final (closeTab tab s)) p = true -> is_selected s p = true.
Proof.
  unfold is_closed, is_selected. intros Hc.
  destruct (closeTab_cases tab s) as [E|[[_ E]|[_ [s2 [Hs2 E]]]]]; rewrite E.
  - auto.
  - now rewrite selected_set_closed.
  - rewrite selected_set_closed.
    destruct Hs2 as [->|[p' [_ [Hc' ->]]]]; rewrite !selected_set_selected; cbn.
    + destruct (Nat.eqb p tab); [discriminate|auto].
    + destruct (Nat.eqb p p') eqn:E'.
      * apply Nat.eqb_eq in E'. subst p'. unfold is_closed in Hc'. congruence.
      * destruct (Nat.eqb p tab); [discriminate|auto].
Qed.

(** C3, amended: once a panel's [closed] flag is true it stays true through
    every sequence of [open], [closeTab], [activeIndex] assignments and
    [initTabs] (subscribers not touching the panels), and [closeTab] never
    selects such a panel.  Nothing is said of [open], the [activeIndex]
    setter and [initTabs], which do not read [closed]. *)
Theorem closed_is_permanent subs ops s p :
  passive subs ->
  is_closed s p = true ->
  is_closed (run subs ops s) p = true /\
  (forall tab,
     is_selected (final (closeTab tab (run subs ops s))) p = true ->
     is_selected (run subs ops s) p = true).
Proof.
  intros Hp Hc.
  assert (Hc' := closed_run subs ops s p Hp Hc).
  split; [exact Hc'|].
  intros tab. now apply closeTab_skips_closed.
Qed.

Lemma closed_is_permanent_witness :
  is_closed third_closed 2 = true /\
  is_closed (run write_back_subscriber busy_run third_closed) 2 = true.
Proof.
  split; [reflexivity|].
  exact (proj1 (closed_is_permanent write_back_subscriber busy_run third_closed 2
                  passive_write_back_subscriber eq_refl)).
Defined.

(** C3 as stated fails: panel 2 is closed and unselected, and assigning
    [activeIndex = 2] selects it again. *)
Lemma closed_panel_selected_again_counterexample :
  is_closed third_closed 2 = true /\
  is_selected third_closed 2 = false /\
  threw (set_activeIndex (Some 2%Z) third_closed) = false /\
  is_selected (final (set_activeIndex (Some 2%Z) third_closed)) 2 = true /\
  is_closed (final (set_activeIndex (Some 2%Z) third_closed)) 2 = true.
Proof. repeat split. Qed.

(** [open] and [initTabs] select closed panels as well. *)
Example closed_panel_selected_by_open_and_initTabs :
  is_selected (final (open no_subscribers None 2 third_closed)) 2 = true /\
  is_closed (run no_subscribers [OpCloseTab 0; OpCloseTab 0] three_tabs) 0 = true /\
  is_selected (run no_subscribers [OpCloseTab 0; OpCloseTab 0] three_tabs) 0 = false /\
  is_selected (run no_subscribers [OpCloseTab 0; OpCloseTab 0; OpInitTabs [0; 3]]
                   three_tabs) 0 = true.
Proof. repeat split. Qed.

(** ** Header strip scrolling *)






(** At the ends of the range the moves stop at 0 and at the last position. *)
Example nav_stops_at_the_ends :
  navBackward (mkViewport 30 1000 300 (Some 40%Z) (Some 40%Z)) = 0%Z /\
  navForward (mkViewport 700 1000 300 (Some 40%Z) (Some 40%Z)) = 780%Z.
Proof. split; reflexivity. Qed.

(** * Further properties of the container *)

(** ** The store under the operations *)

Lemma loaded_set_selected p v s q :
  loaded (heap (set_selected p v s) q) =
  if Nat.eqb q p then loaded (heap s p) || v else loaded (heap s q).
Proof.
  unfold set_selected, set_panel, upd, with_selected, with_loaded.
  destruct (Nat.eqb q p) eqn:E.
  - apply Nat.eqb_eq in E. subst.
    destruct v; cbn; rewrite ?Nat.eqb_refl; cbn;
      destruct (loaded (heap s p)); cbn; rewrite ?Nat.eqb_refl; reflexivity.
  - destruct v; cbn; rewrite ?Nat.eqb_refl; cbn;
      destruct (loaded (heap s p)); cbn; rewrite ?E; reflexivity.
Qed.

Lemma set_closed_at p v s q :
  heap (set_closed p v s) q =
  if Nat.eqb q p then with_closed v (heap s p) else heap s q.
Proof. unfold set_closed, set_panel, upd. cbn. reflexivity. Qed.

Lemma evolves_refl s : evolves s s.
Proof. now apply ev_same. Qed.

Lemma evolves_heap s s1 s' : evolves s s1 -> heap s' = heap s1 -> evolves s s'.
Proof.
  intros H E. destruct H as [s1 E'|s0 s1 p v H E'|s0 s1 p H E'].
  - apply ev_same. now rewrite E.
  - eapply ev_select; [exact H|]. rewrite E. exact E'.
  - eapply ev_close; [exact H|]. rewrite E. exact E'.
Qed.

Lemma evolves_trans s1 s2 s3 : evolves s1 s2 -> evolves s2 s3 -> evolves s1 s3.
Proof.
  intros H12 H23. induction H23 as [s' E|s' s'' p v _ IH E|s' s'' p _ IH E].
  - exact (evolves_heap s1 s2 s' H12 E).
  - eapply ev_select; [exact IH|exact E].
  - eapply ev_close; [exact IH|exact E].
Qed.

Lemma heap_set_selected_ext p v s s' :
  heap s' = heap s -> heap (set_selected p v s') = heap (set_selected p v s).
Proof.
  intros E. unfold set_selected, set_panel. cbn. rewrite E.
  destruct v; cbn; destruct (loaded _); cbn; rewrite ?E; reflexivity.
Qed.

Lemma evolves_select_over s s1 p v :
  heap s1 = heap s -> evolves s (set_selected p v s1).
Proof.
  intros E. eapply ev_select; [apply ev_same; reflexivity|].
  now apply heap_set_selected_ext.
Qed.

Lemma evolves_set_selected s p v : evolves s (set_selected p v s).
Proof. eapply ev_select; [apply evolves_refl|reflexivity]. Qed.

Lemma evolves_set_closed s p : evolves s (set_closed p true s).
Proof. eapply ev_close; [apply evolves_refl|reflexivity]. Qed.

Lemma evolves_selection_moved_to tab s : evolves s (selection_moved_to tab s).
Proof.
  unfold selection_moved_to.
  eapply ev_select; [|reflexivity].
  apply (evolves_heap s (deselect_current s)); [|reflexivity].
  unfold deselect_current. destruct (findSelectedTab s).
  - apply evolves_set_selected.
  - apply evolves_refl.
Qed.

Lemma evolves_open subs event tab s :
  passive subs -> evolves s (final (open subs event tab s)).
Proof.
  intros Hp. destruct (open_store subs event tab s Hp) as [_ [Hh|[_ Hh]]].
  - now apply ev_same.
  - exact (evolves_heap s _ _ (evolves_selection_moved_to tab s) Hh).
Qed.

Lemma evolves_set_activeIndex val s : evolves s (final (set_activeIndex val s)).
Proof.
  destruct (set_activeIndex_cases val s)
    as [E|[E|[[cur [Hc E]]|[cur [target [k [Hc [Ht E]]]]]]]]; rewrite E.
  - now apply ev_same.
  - now apply ev_same.
  - now apply evolves_select_over.
  - eapply ev_select with (p := target) (v := true);
      [now apply (evolves_select_over s (with_activeIndex val s) cur false)|].
    now rewrite heap_scroll_requested.
Qed.

Lemma evolves_initTabs panels s : evolves s (final (initTabs panels s)).
Proof.
  destruct (initTabs_cases panels s) as [E|[E|[target [Hn E]]]]; rewrite E.
  - now apply ev_same.
  - now apply ev_same.
  - eapply ev_select with (p := target) (v := true)
                          (s1 := with_tabs panels s);
      [now apply ev_same|reflexivity].
Qed.

Lemma evolves_closeTab tab s : evolves s (final (closeTab tab s)).
Proof.
  destruct (closeTab_cases tab s) as [E|[[_ E]|[_ [s2 [Hs2 E]]]]]; rewrite E.
  - apply evolves_refl.
  - apply evolves_set_closed.
  - eapply ev_close; [|reflexivity].
    assert (H1 : evolves s (set_selected tab false (with_tabChanged true s))).
    { now apply evolves_select_over. }
    destruct Hs2 as [->|[p [_ [_ ->]]]]; [exact H1|].
    eapply ev_select; [exact H1|reflexivity].
Qed.

Lemma evolves_exec subs o s : passive subs -> evolves s (exec subs o s).
Proof.
  intros Hp. destruct o as [event tab|tab|val|panels]; cbn [exec].
  - now apply evolves_open.
  - apply evolves_closeTab.
  - apply evolves_set_activeIndex.
  - apply evolves_initTabs.
Qed.

Lemma evolves_run subs ops s : passive subs -> evolves s (run subs ops s).
Proof.
  intros Hp. revert s. induction ops as [|o ops IH]; intros s.
  - apply evolves_refl.
  - cbn [run fold_left]. eapply evolves_trans; [apply evolves_exec, Hp|apply IH].
Qed.

Lemma evolves_loaded s s' p :
  evolves s s' -> loaded (heap s p) = true -> loaded (heap s' p) = true.
Proof.
  intros H Hl. induction H as [s' E|s1 s' q v _ IH E|s1 s' q _ IH E]; rewrite E.
  - exact Hl.
  - rewrite loaded_set_selected. destruct (Nat.eqb p q) eqn:Eq; [|exact IH].
    apply Nat.eqb_eq in Eq. subst q. now rewrite IH.
  - rewrite set_closed_at. destruct (Nat.eqb p q) eqn:Eq; [|exact IH].
    apply Nat.eqb_eq in Eq. subst q. exact IH.
Qed.

Lemma evolves_disabled s s' p :
  evolves s s' -> disabled (heap s' p) = disabled (heap s p).
Proof.
  intros H. induction H as [s' E|s1 s' q v _ IH E|s1 s' q _ IH E]; rewrite E.
  - reflexivity.
  - now rewrite disabled_set_selected.
  - rewrite set_closed_at. destruct (Nat.eqb p q) eqn:Eq; [|exact IH].
    apply Nat.eqb_eq in Eq. subst q. exact IH.
Qed.

Lemma evolves_selected_are_loaded s s' :
  evolves s s' -> selected_are_loaded s -> selected_are_loaded s'.
Proof.
  unfold selected_are_loaded, is_selected.
  intros H Hi. induction H as [s' E|s1 s' q v _ IH E|s1 s' q _ IH E];
    intros p; rewrite E.
  - apply Hi.
  - rewrite selected_set_selected, loaded_set_selected.
    destruct (Nat.eqb p q); [|apply IH].
    intros ->. apply orb_true_r.
  - rewrite selected_set_closed, set_closed_at.
    destruct (Nat.eqb p q) eqn:Eq; [|apply IH].
    apply Nat.eqb_eq in Eq. subst q. apply IH.
Qed.

(** X1: a panel's [loaded] flag, once true, stays true through every sequence
    of [open], [closeTab], [activeIndex] assignments and [initTabs]
    (subscribers not touching the panels), and no such sequence changes a
    panel's [disabled] flag. *)
Theorem loaded_is_permanent subs ops s p :
  passive subs ->
  (loaded (heap s p) = true -> loaded (heap (run subs ops s) p) = true) /\
  is_disabled (run subs ops s) p = is_disabled s p.
Proof.
  intros Hp. assert (H := evolves_run subs ops s Hp). split.
  - now apply evolves_loaded.
  - now apply evolves_disabled.
Qed.

Lemma loaded_is_permanent_witness :
  loaded (heap (run write_back_subscriber busy_run three_tabs) 0) = true /\
  is_disabled (run write_back_subscriber busy_run first_disabled) 0 = true.
Proof.
  split.
  - exact (proj1 (loaded_is_permanent write_back_subscriber busy_run three_tabs 0
                    passive_write_back_subscriber) eq_refl).
  - exact (proj2 (loaded_is_permanent write_back_subscriber busy_run first_disabled 0
                    passive_write_back_subscriber)).
Defined.

(** X2: if every selected panel is loaded, the same holds after every
    sequence of container operations: the container selects panels through
    the [selected] setter only, which marks them loaded. *)
Theorem selected_panels_are_loaded subs ops s :
  passive subs -> selected_are_loaded s -> selected_are_loaded (run subs ops s).
Proof.
  intros Hp Hi. exact (evolves_selected_are_loaded s _ (evolves_run subs ops s Hp) Hi).
Qed.

Lemma selected_panels_are_loaded_witness :
  selected_are_loaded
    (run write_back_subscriber busy_run (mount (fun _ => fresh) None false)).
Proof.
  apply (selected_panels_are_loaded write_back_subscriber busy_run
           (mount (fun _ => fresh) None false) passive_write_back_subscriber).
  intros p H. discriminate H.
Defined.

(** ** open and disabled panels *)

(** X3: [open] never selects a disabled panel: a disabled, unselected panel is
    still unselected after [open] on any panel (subscribers not touching the
    panels). *)
Theorem open_never_selects_a_disabled_panel subs event tab s p :
  passive subs ->
  is_disabled s p = true -> is_selected s p = false ->
  is_selected (final (open subs event tab s)) p = false.
Proof.
  intros Hp Hd Hs. unfold is_selected.
  destruct (open_store subs event tab s Hp) as [_ [Hh|[Hst Hh]]]; rewrite Hh.
  - exact Hs.
  - destruct (is_disabled s tab) eqn:Hdt.
    + rewrite (open_disabled subs event tab s Hdt) in Hh. cbn in Hh.
      rewrite heap_default_prevented in Hh. rewrite <- Hh. exact Hs.
    + fold (is_selected (selection_moved_to tab s) p).
      rewrite selected_selection_moved_to.
      destruct (Nat.eqb p tab) eqn:E.
      * apply Nat.eqb_eq in E. subst p. congruence.
      * destruct (findSelectedTab s) as [cur|]; [|exact Hs].
        destruct (Nat.eqb p cur); [reflexivity|exact Hs].
Qed.

Lemma open_never_selects_a_disabled_panel_witness :
  is_selected (final (open write_back_subscriber (Some 7) 1 second_disabled)) 1 = false /\
  is_selected (final (open write_back_subscriber (Some 7) 2 second_disabled)) 1 = false.
Proof.
  split; apply (open_never_selects_a_disabled_panel write_back_subscriber (Some 7) _
                  second_disabled 1 passive_write_back_subscriber); reflexivity.
Defined.

(** The [activeIndex] setter has no such check. *)
Example activeIndex_setter_selects_disabled_panel :
  is_disabled second_disabled 1 = true /\
  is_selected (final (set_activeIndex (Some 1%Z) second_disabled)) 1 = true.
Proof. split; reflexivity. Qed.

(** ** findTabIndex *)

Lemma findTabIndex_from_absent l tab i :
  ~ In tab l -> findTabIndex_from i l tab = (-1)%Z.
Proof.
  revert i. induction l as [|a l IH]; intros i H; [reflexivity|].
  cbn [findTabIndex_from]. destruct (Nat.eqb a tab) eqn:E.
  - apply Nat.eqb_eq in E. subst. elim H. now left.
  - apply IH. intros Hin. apply H. now right.
Qed.

Lemma findTabIndex_from_first l tab i :
  In tab l ->
  (i <= findTabIndex_from i l tab < i + Z.of_nat (length l))%Z /\
  forall n, (Z.of_nat n < findTabIndex_from i l tab - i)%Z ->
            nth_error l n <> Some tab.
Proof.
  revert i. induction l as [|a l IH]; intros i Hin; [destruct Hin|].
  cbn [findTabIndex_from length]. destruct (Nat.eqb a tab) eqn:E.
  - split; [lia|]. intros n Hn. lia.
  - destruct Hin as [->|Hin]; [rewrite Nat.eqb_refl in E; discriminate|].
    destruct (IH (i + 1)%Z Hin) as [Hr Hmin]. split; [lia|].
    intros [|n] Hn; cbn.
    + intros [= ->]. rewrite Nat.eqb_refl in E. discriminate.
    + apply Hmin. lia.
Qed.

Lemma findTabIndex_from_nodup l tab i n :
  NoDup l -> nth_error l n = Some tab ->
  findTabIndex_from i l tab = (i + Z.of_nat n)%Z.
Proof.
  revert i n. induction l as [|a l IH]; intros i n Hnd Hn.
  - destruct n; discriminate.
  - inversion Hnd as [|? ? Hnotin Hnd']; subst.
    cbn [findTabIndex_from]. destruct n as [|n]; cbn in Hn.
    + injection Hn as ->. rewrite Nat.eqb_refl. lia.
    + destruct (Nat.eqb a tab) eqn:E.
      * apply Nat.eqb_eq in E. subst. elim Hnotin.
        exact (nth_error_In _ _ Hn).
      * rewrite (IH (i + 1)%Z n Hnd' Hn). lia.
Qed.

(** X4: [findTabIndex] returns [-1] exactly for a panel that is not in
    [tabs]; for a panel of [tabs] it returns the first position that holds it,
    so [tabs[findTabIndex(tab)]] is [tab]; and when no panel occurs twice,
    [findTabIndex(tabs[k])] is [k]. *)
Theorem findTabIndex_is_the_first_position tab s :
  (~ In tab (tabs s) -> findTabIndex tab s = (-1)%Z) /\
  (In tab (tabs s) ->
     (0 <= findTabIndex tab s < Z.of_nat (length (tabs s)))%Z /\
     tab_at (findTabIndex tab s) s = Some tab /\
     forall j, (0 <= j < findTabIndex tab s)%Z -> tab_at j s <> Some tab) /\
  (forall k, NoDup (tabs s) -> tab_at k s = Some tab -> findTabIndex tab s = k).
Proof.
  split; [apply findTabIndex_from_absent|]. split.
  - intros Hin.
    destruct (findTabIndex_from_first (tabs s) tab 0%Z Hin) as [Hr Hmin].
    fold (findTabIndex tab s) in Hr, Hmin.
    split; [lia|]. split; [now apply findTabIndex_spec|].
    intros j Hj. unfold tab_at.
    destruct (j <? 0)%Z eqn:E; [discriminate|].
    apply Hmin. lia.
  - intros k Hnd Hk. unfold tab_at in Hk.
    destruct (k <? 0)%Z eqn:E; [discriminate|]. apply Z.ltb_ge in E.
    unfold findTabIndex.
    rewrite (findTabIndex_from_nodup (tabs s) tab 0%Z (Z.to_nat k) Hnd Hk). lia.
Qed.

Lemma findTabIndex_is_the_first_position_witness :
  findTabIndex 5 three_tabs = (-1)%Z /\
  tab_at (findTabIndex 2 three_tabs) three_tabs = Some 2 /\
  findTabIndex 1 three_tabs = 1%Z.
Proof.
  destruct (findTabIndex_is_the_first_position 5 three_tabs) as [Habs _].
  destruct (findTabIndex_is_the_first_position 2 three_tabs) as [_ [Hin _]].
  destruct (findTabIndex_is_the_first_position 1 three_tabs) as [_ [_ Hnd]].
  split; [|split].
  - apply Habs. vm_compute. intros [H|[H|[H|[]]]]; discriminate H.
  - apply Hin. vm_compute. auto.
  - apply Hnd; [|reflexivity].
    vm_compute. repeat constructor; cbn; intuition discriminate.
Defined.

(** ** Which operations notify *)

Lemma notifications_perform_silent e l :
  is_notification e = false -> notifications (l ++ [e]) = notifications l.
Proof.
  intros H. unfold notifications. rewrite filter_app. cbn. rewrite H.
  apply app_nil_r.
Qed.

Lemma notifications_set_activeIndex val s :
  notifications (effects (final (set_activeIndex val s))) = notifications (effects s).
Proof.
  destruct (set_activeIndex_cases val s)
    as [E|[E|[[cur [Hc E]]|[cur [target [k [Hc [Ht E]]]]]]]]; rewrite E;
    rewrite ?notifications_scroll_requested; cbn;
    rewrite ?effects_set_selected_notifications; reflexivity.
Qed.

Lemma notifications_initTabs panels s :
  notifications (effects (final (initTabs panels s))) = notifications (effects s).
Proof.
  destruct (initTabs_cases panels s) as [E|[E|[target [Hn E]]]]; rewrite E; cbn;
    rewrite ?notifications_perform_silent by reflexivity;
    rewrite ?effects_set_selected_notifications; reflexivity.
Qed.

Lemma notifications_closeTab tab s :
  notifications (effects (final (closeTab tab s))) = notifications (effects s).
Proof.
  destruct (closeTab_cases tab s) as [E|[[_ E]|[_ [s2 [Hs2 E]]]]]; rewrite E.
  - reflexivity.
  - reflexivity.
  - replace (effects (set_closed tab true s2)) with (effects s2) by reflexivity.
    destruct Hs2 as [->|[p [_ [_ ->]]]];
      rewrite ?effects_set_selected_notifications; reflexivity.
Qed.

(** X5: [initTabs], an assignment to [activeIndex] and [closeTab] emit
    nothing: whatever they do to the selection, the notifications among the
    effects are the same before and after.  Only [open] and [close] emit. *)
Theorem selection_changes_outside_open_are_silent s :
  (forall panels,
     notifications (effects (final (initTabs panels s))) = notifications (effects s)) /\
  (forall val,
     notifications (effects (final (set_activeIndex val s))) = notifications (effects s)) /\
  (forall tab,
     notifications (effects (final (closeTab tab s))) = notifications (effects s)).
Proof.
  split; [intros; apply notifications_initTabs|].
  split; [intros; apply notifications_set_activeIndex|].
  intros; apply notifications_closeTab.
Qed.

(** ** close *)

Lemma closeTab_returns tab s : closeTab tab s = Ok tt (final (closeTab tab s)).
Proof.
  destruct (is_disabled s tab) eqn:Hd.
  { now rewrite (closeTab_disabled tab s Hd). }
  destruct (is_selected s tab) eqn:Hs.
  - now rewrite (closeTab_selected tab s Hd Hs).
  - now rewrite (closeTab_unselected tab s Hd Hs).
Qed.

Lemma close_run subs event tab s :
  close subs event tab s =
  propagation_stopped event
    (on_onClose subs (close_event event tab s)
       (perform (EmitOnClose (close_event event tab s))
          (state_at_close_event tab s))).
Proof.
  unfold close_event, state_at_close_event, close, bind, get, emit_onClose, modify.
  cbn. destruct (controlClose s); cbn.
  - destruct event; reflexivity.
  - rewrite (closeTab_returns tab s). cbn. destruct event; reflexivity.
Qed.

Lemma final_propagation_stopped event s :
  heap (final (propagation_stopped event s)) = heap s /\
  tabs (final (propagation_stopped event s)) = tabs s.
Proof. destruct event; split; reflexivity. Qed.

Lemma tabs_closeTab tab s : tabs (final (closeTab tab s)) = tabs s.
Proof.
  destruct (closeTab_cases tab s) as [E|[[_ E]|[_ [s2 [Hs2 E]]]]]; rewrite E.
  - reflexivity.
  - reflexivity.
  - replace (tabs (set_closed tab true s2)) with (tabs s2) by reflexivity.
    destruct Hs2 as [->|[p [_ [_ ->]]]]; now rewrite !tabs_set_selected.
Qed.

Lemma tabs_set_activeIndex val s : tabs (final (set_activeIndex val s)) = tabs s.
Proof.
  destruct (set_activeIndex_cases val s)
    as [E|[E|[[cur [Hc E]]|[cur [target [k [Hc [Ht E]]]]]]]]; rewrite E;
    rewrite ?tabs_scroll_requested; cbn;
    rewrite ?tabs_set_selected; reflexivity.
Qed.

Lemma close_store subs event tab s :
  passive subs ->
  heap (final (close subs event tab s)) = heap (state_at_close_event tab s) /\
  tabs (final (close subs event tab s)) = tabs s.
Proof.
  intros Hp. rewrite close_run.
  destruct (final_propagation_stopped event
              (on_onClose subs (close_event event tab s)
                 (perform (EmitOnClose (close_event event tab s))
                    (state_at_close_event tab s)))) as [-> ->].
  destruct (passive_close subs Hp (close_event event tab s)
              (perform (EmitOnClose (close_event event tab s))
                 (state_at_close_event tab s))) as [-> ->].
  cbn. split; [reflexivity|].
  unfold state_at_close_event. destruct (controlClose s); [reflexivity|].
  apply tabs_closeTab.
Qed.

(** X6: [open], [close], [closeTab] and an assignment to [activeIndex] never
    change the [tabs] array (subscribers not touching it): a closed panel
    stays in [tabs], and every panel keeps its index. *)
Theorem tabs_only_change_in_initTabs subs s :
  passive subs ->
  (forall event tab, tabs (final (open subs event tab s)) = tabs s) /\
  (forall event tab, tabs (final (close subs event tab s)) = tabs s) /\
  (forall tab, tabs (final (closeTab tab s)) = tabs s) /\
  (forall val, tabs (final (set_activeIndex val s)) = tabs s) /\
  (forall tab p, findTabIndex p (final (closeTab tab s)) = findTabIndex p s).
Proof.
  intros Hp.
  split; [intros; exact (proj1 (open_store subs event tab s Hp))|].
  split; [intros; exact (proj2 (close_store subs event tab s Hp))|].
  split; [intros; apply tabs_closeTab|].
  split; [intros; apply tabs_set_activeIndex|].
  intros tab p. unfold findTabIndex. now rewrite tabs_closeTab.
Qed.

Lemma tabs_only_change_in_initTabs_witness :
  tabs (final (close write_back_subscriber (Some 7) 0 three_tabs)) = [0; 1; 2] /\
  findTabIndex 2 (final (closeTab 0 three_tabs)) = 2%Z.
Proof.
  destruct (tabs_only_change_in_initTabs write_back_subscriber three_tabs
              passive_write_back_subscriber) as [_ [Hc [_ [_ Hi]]]].
  split; [exact (Hc (Some 7) 0)|exact (Hi 0 2)].
Defined.

Lemma closeTab_store_ext tab s s' :
  heap s' = heap s -> tabs s' = tabs s ->
  heap (final (closeTab tab s')) = heap (final (closeTab tab s)).
Proof.
  intros Eh Et.
  assert (Hd : is_disabled s' tab = is_disabled s tab)
    by (unfold is_disabled; now rewrite Eh).
  assert (Hs : is_selected s' tab = is_selected s tab)
    by (unfold is_selected; now rewrite Eh).
  destruct (is_disabled s tab) eqn:Hd0.
  { rewrite (closeTab_disabled tab s Hd0), (closeTab_disabled tab s' Hd).
    exact Eh. }
  destruct (is_selected s tab) eqn:Hs0.
  - rewrite (closeTab_selected_picks tab s Hd0 Hs0),
            (closeTab_selected_picks tab s' Hd Hs).
    cbn [final]. unfold set_closed, set_panel. cbn [heap with_heap].
    unfold is_closed. rewrite Eh, Et.
    assert (E1 : heap (set_selected tab false (with_tabChanged true s')) =
                 heap (set_selected tab false (with_tabChanged true s)))
      by (apply heap_set_selected_ext; exact Eh).
    destruct (find (fun p => negb (closed (heap s p))) (tabs s)) as [p|].
    + now rewrite (heap_set_selected_ext p true _ _ E1).
    + now rewrite E1.
  - rewrite (closeTab_unselected tab s Hd0 Hs0), (closeTab_unselected tab s' Hd Hs).
    cbn [final]. unfold set_closed, set_panel. cbn [heap with_heap]. now rewrite Eh.
Qed.

(** X7: [close] emits one close event and then stops the propagation of the
    DOM event.  In controlled mode the event is emitted on the untouched
    state and carries the continuation for [tab]: [close] leaves every panel
    as it is, and invoking the continuation afterwards leaves the panels
    exactly as an uncontrolled [close] on the same state would.  In
    uncontrolled mode [closeTab] has run before the emission and the event
    carries no continuation.  In both modes the event carries the position of
    [tab] in [tabs], and with subscribers that perform no effect of their own
    the call adds to the effects of the state it emits on exactly the close
    event followed by [stopPropagation] (subscribers not touching the
    panels). *)
Theorem controlled_close_defers_closeTab subs event tab s :
  passive subs ->
  (controlClose s = true ->
     close subs event tab s =
     propagation_stopped event
       (on_onClose subs (mkClose event (findTabIndex tab s) (Some tab))
          (perform (EmitOnClose (mkClose event (findTabIndex tab s) (Some tab))) s)) /\
     heap (final (close subs event tab s)) = heap s /\
     heap (final (closeTab tab (final (close subs event tab s)))) =
     heap (final (closeTab tab s)) /\
     (silent subs -> forall d, event = Some d ->
        threw (close subs event tab s) = false /\
        effects (final (close subs event tab s)) =
        effects s ++
        [EmitOnClose (mkClose event (findTabIndex tab s) (Some tab));
         StopPropagation d])) /\
  (controlClose s = false ->
     close subs event tab s =
     propagation_stopped event
       (on_onClose subs (mkClose event (findTabIndex tab s) None)
          (perform (EmitOnClose (mkClose event (findTabIndex tab s) None))
             (final (closeTab tab s)))) /\
     heap (final (close subs event tab s)) = heap (final (closeTab tab s)) /\
     (silent subs -> forall d, event = Some d ->
        threw (close subs event tab s) = false /\
        effects (final (close subs event tab s)) =
        effects (final (closeTab tab s)) ++
        [EmitOnClose (mkClose event (findTabIndex tab s) None);
         StopPropagation d])).
Proof.
  intros Hp. destruct (close_store subs event tab s Hp) as [Hh Ht].
  assert (E := close_run subs event tab s).
  unfold close_event, state_at_close_event in *.
  split; intros Hc; rewrite Hc in *.
  - split; [exact E|]. split; [exact Hh|].
    split; [now apply closeTab_store_ext|].
    intros Hq d ->. rewrite E. cbn.
    rewrite (silent_close subs Hq). cbn [effects perform].
    now rewrite <- app_assoc.
  - assert (Ei : findTabIndex tab (final (closeTab tab s)) = findTabIndex tab s)
      by (apply findTabIndex_same_tabs, tabs_closeTab).
    rewrite Ei in E.
    split; [exact E|]. split; [exact Hh|].
    intros Hq d ->. rewrite E. cbn.
    rewrite (silent_close subs Hq). cbn [effects perform].
    now rewrite <- app_assoc.
Qed.

Lemma controlled_close_defers_closeTab_witness :
  heap (final (close no_subscribers (Some 7) 1 three_tabs)) =
  heap (final (closeTab 1 three_tabs)) /\
  effects (final (close no_subscribers (Some 7) 1 three_tabs_controlled)) =
  effects three_tabs_controlled ++
  [EmitOnClose (mkClose (Some 7) 1%Z (Some 1)); StopPropagation 7] /\
  heap (final (close no_subscribers (Some 7) 1 three_tabs_controlled)) =
  heap three_tabs_controlled /\
  heap (final (closeTab 1 (final (close no_subscribers (Some 7) 1 three_tabs_controlled)))) =
  heap (final (closeTab 1 three_tabs_controlled)).
Proof.
  destruct (proj2 (controlled_close_defers_closeTab no_subscribers (Some 7) 1
                     three_tabs passive_no_subscribers) eq_refl) as [_ [H _]].
  destruct (proj1 (controlled_close_defers_closeTab no_subscribers (Some 7) 1
                     three_tabs_controlled passive_no_subscribers) eq_refl)
    as [_ [H1 [H2 H3]]].
  split; [exact H|].
  split; [exact (proj2 (H3 silent_no_subscribers 7 eq_refl))|].
  split; [exact H1|exact H2].
Defined.

(** [event.stopPropagation()] is reached after the panel has been closed and
    the event emitted: without an event object [close] closes the panel and
    then throws. *)
Example close_without_event_closes_then_throws :
  threw (close no_subscribers None 1 three_tabs) = true /\
  is_closed (final (close no_subscribers None 1 three_tabs)) 1 = true /\
  notifications (effects (final (close no_subscribers None 1 three_tabs))) =
  [EmitOnClose (mkClose None 1%Z None)].
Proof. repeat split. Qed.

(** ** The guard flag and the bound index *)

Lemma open_unselected_final subs event tab s :
  is_disabled s tab = false -> is_selected s tab = false ->
  final (open subs event tab s) =
  default_prevented event
    (scroll_requested (findTabIndex tab (selection_moved_to tab s))
       (on_onChange subs (mkChange event (findTabIndex tab (selection_moved_to tab s)))
          (perform (EmitOnChange
                      (mkChange event (findTabIndex tab (selection_moved_to tab s))))
             (on_activeIndexChange subs (findTabIndex tab (selection_moved_to tab s))
                (perform (EmitActiveIndexChange
                            (findTabIndex tab (selection_moved_to tab s)))
                   (with_prevent true (selection_moved_to tab s))))))).
Proof.
  intros Hd Hs. assert (E := open_unselected subs event tab s Hd Hs).
  cbv zeta in E. now rewrite E.
Qed.

Lemma prevent_default_prevented event s :
  preventActiveIndexPropagation (default_prevented event s) =
  preventActiveIndexPropagation s.
Proof. destruct event; reflexivity. Qed.

Lemma activeIndex_default_prevented event s :
  _activeIndex (default_prevented event s) = _activeIndex s.
Proof. destruct event; reflexivity. Qed.

Lemma open_unselected_heap subs event tab s :
  passive subs -> is_disabled s tab = false -> is_selected s tab = false ->
  heap (final (open subs event tab s)) = heap (selection_moved_to tab s).
Proof.
  intros Hp Hd Hs.
  rewrite (open_unselected_final subs event tab s Hd Hs).
  rewrite heap_default_prevented, heap_scroll_requested.
  set (i := findTabIndex tab (selection_moved_to tab s)).
  set (a := perform (EmitActiveIndexChange i)
              (with_prevent true (selection_moved_to tab s))).
  destruct (passive_change subs Hp (mkChange event i)
              (perform (EmitOnChange (mkChange event i))
                 (on_activeIndexChange subs i a))) as [-> _].
  cbn. now destruct (passive_index subs Hp i a eq_refl) as [-> _].
Qed.

Lemma open_enabled_selects subs event tab s :
  passive subs -> is_disabled s tab = false ->
  is_selected (final (open subs event tab s)) tab = true.
Proof.
  intros Hp Hd. unfold is_selected. destruct (is_selected s tab) eqn:Hs.
  - rewrite (open_selected subs event tab s Hd Hs). cbn.
    now rewrite heap_default_prevented.
  - rewrite (open_unselected_heap subs event tab s Hp Hd Hs).
    fold (is_selected (selection_moved_to tab s) tab).
    rewrite selected_selection_moved_to. now rewrite Nat.eqb_refl.
Qed.

(** X8: when [open] selects a panel and no subscriber writes the index back
    (the guard flag comes out of both subscribers as it went in), the guard
    flag is still set when [open] returns, and the next assignment to
    [activeIndex], whatever its value, only stores the value and clears the
    flag: it returns normally, the field holds the value, the flag is clear,
    and no panel, no other field and no effect changes.  This is also how
    the two-way binding [[(activeIndex)]] reaches the setter, at the host's
    next change detection. *)
Theorem assignment_after_open_without_write_back_is_ignored subs event tab s val :
  passive subs ->
  (forall i st, preventActiveIndexPropagation (on_activeIndexChange subs i st) =
                preventActiveIndexPropagation st) ->
  (forall e st, preventActiveIndexPropagation (on_onChange subs e st) =
                preventActiveIndexPropagation st) ->
  is_disabled s tab = false -> is_selected s tab = false ->
  preventActiveIndexPropagation (final (open subs event tab s)) = true /\
  threw (set_activeIndex val (final (open subs event tab s))) = false /\
  _activeIndex (final (set_activeIndex val (final (open subs event tab s)))) = val /\
  preventActiveIndexPropagation
    (final (set_activeIndex val (final (open subs event tab s)))) = false /\
  heap (final (set_activeIndex val (final (open subs event tab s)))) =
  heap (final (open subs event tab s)) /\
  tabs (final (set_activeIndex val (final (open subs event tab s)))) =
  tabs (final (open subs event tab s)) /\
  tabChanged (final (set_activeIndex val (final (open subs event tab s)))) =
  tabChanged (final (open subs event tab s)) /\
  effects (final (set_activeIndex val (final (open subs event tab s)))) =
  effects (final (open subs event tab s)) /\
  is_selected (final (set_activeIndex val (final (open subs event tab s)))) tab = true.
Proof.
  intros Hp Hi Hc Hd Hs.
  assert (Hg : preventActiveIndexPropagation (final (open subs event tab s)) = true).
  { rewrite (open_unselected_final subs event tab s Hd Hs).
    rewrite prevent_default_prevented, prevent_scroll_requested.
    rewrite Hc. cbn. rewrite Hi. reflexivity. }
  split; [exact Hg|].
  rewrite (set_activeIndex_pending val _ Hg). cbn.
  do 7 (split; [reflexivity|]).
  now apply open_enabled_selects.
Qed.

Lemma assignment_after_open_without_write_back_is_ignored_witness :
  preventActiveIndexPropagation (final (open no_subscribers (Some 7) 2 three_tabs)) = true /\
  _activeIndex (final (set_activeIndex (Some 1%Z)
                         (final (open no_subscribers (Some 7) 2 three_tabs)))) = Some 1%Z /\
  preventActiveIndexPropagation
    (final (set_activeIndex (Some 1%Z)
              (final (open no_subscribers (Some 7) 2 three_tabs)))) = false /\
  map (is_selected
         (final (set_activeIndex (Some 1%Z)
                   (final (open no_subscribers (Some 7) 2 three_tabs)))))
      [0; 1; 2] = [false; false; true].
Proof.
  destruct (assignment_after_open_without_write_back_is_ignored
              no_subscribers (Some 7) 2 three_tabs (Some 1%Z)
              passive_no_subscribers (fun _ _ => eq_refl) (fun _ _ => eq_refl)
              eq_refl eq_refl) as [Hg [_ [Hv [Hf _]]]].
  split; [exact Hg|]. split; [exact Hv|]. split; [exact Hf|reflexivity].
Defined.

(** X9: with a subscriber of [activeIndexChange] that assigns the emitted
    index to [activeIndex] from inside its handler, after [open] has
    selected a panel of [tabs] the [activeIndex] field is the position of
    that panel, the guard flag is clear again, and the panel is selected:
    the write-back ran while the guard was set and changed no panel. *)
Theorem synchronous_write_back_tracks_open event tab s :
  is_disabled s tab = false -> is_selected s tab = false -> In tab (tabs s) ->
  exists i,
    _activeIndex (final (open write_back_subscriber event tab s)) = Some i /\
    tab_at i (final (open write_back_subscriber event tab s)) = Some tab /\
    preventActiveIndexPropagation (final (open write_back_subscriber event tab s)) = false /\
    is_selected (final (open write_back_subscriber event tab s)) tab = true /\
    heap (final (open write_back_subscriber event tab s)) =
    heap (final (open no_subscribers event tab s)).
Proof.
  intros Hd Hs Hin.
  exists (findTabIndex tab (selection_moved_to tab s)).
  rewrite (open_unselected_heap no_subscribers event tab s
             passive_no_subscribers Hd Hs).
  rewrite (open_unselected_final write_back_subscriber event tab s Hd Hs).
  unfold is_selected, tab_at.
  rewrite activeIndex_default_prevented, prevent_default_prevented,
          heap_default_prevented, tabs_default_prevented.
  rewrite activeIndex_scroll_requested, prevent_scroll_requested,
          heap_scroll_requested, tabs_scroll_requested.
  cbn. unfold write_back.
  rewrite set_activeIndex_pending by reflexivity. cbn.
  split; [reflexivity|]. split.
  - apply findTabIndex_spec. now rewrite tabs_selection_moved_to.
  - split; [reflexivity|]. split; [|reflexivity].
    fold (is_selected (selection_moved_to tab s) tab).
    rewrite selected_selection_moved_to. now rewrite Nat.eqb_refl.
Qed.

Lemma synchronous_write_back_tracks_open_witness :
  exists i,
    _activeIndex (final (open write_back_subscriber (Some 7) 2 three_tabs)) = Some i /\
    tab_at i (final (open write_back_subscriber (Some 7) 2 three_tabs)) = Some 2 /\
    preventActiveIndexPropagation (final (open write_back_subscriber (Some 7) 2 three_tabs)) = false /\
    is_selected (final (open write_back_subscriber (Some 7) 2 three_tabs)) 2 = true.
Proof.
  destruct (synchronous_write_back_tracks_open (Some 7) 2 three_tabs eq_refl eq_refl
              (or_intror (or_intror (or_introl eq_refl))))
    as [i [H1 [H2 [H3 [H4 _]]]]].
  exists i. auto.
Defined.

(** X10: [open] is idempotent on the panels: a second [open] on the same
    panel changes no panel and emits nothing. *)
Theorem open_twice_is_open_once subs e1 e2 tab s :
  passive subs ->
  heap (final (open subs e2 tab (final (open subs e1 tab s)))) =
  heap (final (open subs e1 tab s)) /\
  notifications (effects (final (open subs e2 tab (final (open subs e1 tab s))))) =
  notifications (effects (final (open subs e1 tab s))).
Proof.
  intros Hp.
  set (s1 := final (open subs e1 tab s)).
  assert (Hd1 : is_disabled s1 tab = is_disabled s tab).
  { unfold is_disabled. exact (evolves_disabled s s1 tab (evolves_open subs e1 tab s Hp)). }
  destruct (is_disabled s tab) eqn:Hd.
  { rewrite (open_disabled subs e2 tab s1 Hd1). cbn.
    now rewrite heap_default_prevented, notifications_default_prevented. }
  assert (Hs1 : is_selected s1 tab = true) by now apply open_enabled_selects.
  rewrite (open_selected subs e2 tab s1 Hd1 Hs1). cbn.
  now rewrite heap_default_prevented, notifications_default_prevented.
Qed.

Lemma open_twice_is_open_once_witness :
  heap (final (open write_back_subscriber None 2
                 (final (open write_back_subscriber (Some 7) 2 three_tabs)))) =
  heap (final (open write_back_subscriber (Some 7) 2 three_tabs)).
Proof.
  exact (proj1 (open_twice_is_open_once write_back_subscriber (Some 7) None 2 three_tabs
                  passive_write_back_subscriber)).
Defined.

(** ** closeTab *)

Lemma tabChanged_set_selected p v s :
  tabChanged (set_selected p v s) = tabChanged s.
Proof. destruct v; panel_cases p p s. Qed.

Lemma set_selected_at p v s q :
  q <> p -> heap (set_selected p v s) q = heap s q.
Proof.
  intros Hne. apply Nat.eqb_neq in Hne.
  unfold set_selected, set_panel, upd.
  destruct v; cbn; rewrite ?Nat.eqb_refl; cbn; destruct (loaded (heap s p)); cbn;
    rewrite ?Hne; reflexivity.
Qed.

Lemma closeTab_closed_flags tab s :
  is_disabled s tab = false ->
  is_closed (final (closeTab tab s)) tab = true /\
  (forall q, q <> tab ->
     is_closed (final (closeTab tab s)) q = is_closed s q).
Proof.
  intros Hd.
  destruct (is_selected s tab) eqn:Hs; unfold is_closed.
  - rewrite (closeTab_selected_picks tab s Hd Hs). cbn [final].
    split; [rewrite closed_set_closed; now rewrite Nat.eqb_refl|].
    intros q Hq. rewrite closed_set_closed.
    apply Nat.eqb_neq in Hq. rewrite Hq.
    destruct (find _ (tabs s)); rewrite !closed_set_selected; reflexivity.
  - rewrite (closeTab_unselected tab s Hd Hs). cbn [final].
    split; [rewrite closed_set_closed; now rewrite Nat.eqb_refl|].
    intros q Hq. rewrite closed_set_closed.
    apply Nat.eqb_neq in Hq. now rewrite Hq.
Qed.

(** X11: [closeTab] on an enabled panel sets that panel's [closed] flag and
    no other panel's; when the panel was not selected, nothing else happens:
    every other panel is untouched, the selection is as before and the dirty
    flag keeps its value. *)
Theorem closeTab_closes_only_its_panel tab s :
  is_disabled s tab = false ->
  is_closed (final (closeTab tab s)) tab = true /\
  (forall q, q <> tab ->
     is_closed (final (closeTab tab s)) q = is_closed s q) /\
  (is_selected s tab = false ->
     (forall q, is_selected (final (closeTab tab s)) q = is_selected s q) /\
     (forall q, q <> tab -> heap (final (closeTab tab s)) q = heap s q) /\
     tabChanged (final (closeTab tab s)) = tabChanged s).
Proof.
  intros Hd. destruct (closeTab_closed_flags tab s Hd) as [Hc Ho].
  split; [exact Hc|]. split; [exact Ho|].
  intros Hs. unfold is_selected.
  rewrite (closeTab_unselected tab s Hd Hs). cbn [final].
  split; [intros q; apply selected_set_closed|].
  split; [|reflexivity].
  intros q Hq. rewrite set_closed_at.
  apply Nat.eqb_neq in Hq. now rewrite Hq.
Qed.

Lemma closeTab_closes_only_its_panel_witness :
  map (is_closed (final (closeTab 2 three_tabs))) [0; 1; 2] = [false; false; true] /\
  map (is_selected (final (closeTab 2 three_tabs))) [0; 1; 2] = [true; false; false].
Proof.
  destruct (closeTab_closes_only_its_panel 2 three_tabs eq_refl) as [H2 [Ho Hs]].
  destruct (Hs eq_refl) as [Hsel _].
  split.
  - cbn [map]. rewrite H2, (Ho 0), (Ho 1) by discriminate. reflexivity.
  - cbn [map]. rewrite !Hsel. reflexivity.
Defined.

(** X12: closing the selected panel when another panel is the first of [tabs]
    that is not closed: that panel is selected, the closed panel ends up
    closed and unselected, no other panel of [tabs] is selected, and the
    dirty flag is set. *)
Theorem closeTab_moves_selection_to_first_open_panel tab s p :
  is_disabled s tab = false -> is_selected s tab = true ->
  In tab (tabs s) -> exclusive s ->
  find (fun q => negb (is_closed s q)) (tabs s) = Some p -> p <> tab ->
  is_closed (final (closeTab tab s)) tab = true /\
  is_selected (final (closeTab tab s)) tab = false /\
  is_selected (final (closeTab tab s)) p = true /\
  is_closed (final (closeTab tab s)) p = false /\
  (forall q, In q (tabs s) -> q <> p ->
     is_selected (final (closeTab tab s)) q = false) /\
  tabChanged (final (closeTab tab s)) = true.
Proof.
  intros Hd Hs Hin Hx Hf Hne.
  destruct (closeTab_closed_flags tab s Hd) as [Hc Ho].
  assert (Hpc : is_closed s p = false).
  { apply find_some in Hf. destruct Hf as [_ Hf]. now apply negb_true_iff in Hf. }
  assert (Hsel : forall q, is_selected (final (closeTab tab s)) q =
                           if Nat.eqb q p then true
                           else if Nat.eqb q tab then false else is_selected s q).
  { intros q. unfold is_selected.
    rewrite (closeTab_selected_picks tab s Hd Hs), Hf. cbn [final].
    rewrite selected_set_closed, !selected_set_selected. reflexivity. }
  split; [exact Hc|].
  split.
  { rewrite Hsel. apply not_eq_sym in Hne. apply Nat.eqb_neq in Hne.
    now rewrite Hne, Nat.eqb_refl. }
  split; [rewrite Hsel; now rewrite Nat.eqb_refl|].
  split; [rewrite (Ho p Hne); exact Hpc|].
  split.
  - intros q Hq Hqp. rewrite Hsel.
    apply Nat.eqb_neq in Hqp. rewrite Hqp.
    destruct (Nat.eqb q tab) eqn:E; [reflexivity|].
    apply Nat.eqb_neq in E.
    destruct (is_selected s q) eqn:Sq; [|reflexivity].
    exfalso. apply E. exact (Hx q tab Hq Hin Sq Hs).
  - rewrite (closeTab_selected_picks tab s Hd Hs), Hf. cbn [final].
    replace (tabChanged (set_closed tab true
               (set_selected p true (set_selected tab false (with_tabChanged true s)))))
      with (tabChanged (set_selected p true
               (set_selected tab false (with_tabChanged true s)))) by reflexivity.
    now rewrite !tabChanged_set_selected.
Qed.

Lemma closeTab_moves_selection_to_first_open_panel_witness :
  is_closed (final (closeTab 1 three_tabs_second)) 1 = true /\
  is_selected (final (closeTab 1 three_tabs_second)) 1 = false /\
  is_selected (final (closeTab 1 three_tabs_second)) 0 = true.
Proof.
  assert (Hx : exclusive three_tabs_second).
  { apply (only_one_selected three_tabs_second 1). intros q Hq Hne.
    vm_compute in Hq. destruct Hq as [<-|[<-|[<-|[]]]];
      [reflexivity|now elim Hne|reflexivity]. }
  destruct (closeTab_moves_selection_to_first_open_panel 1 three_tabs_second 0
              eq_refl eq_refl (or_intror (or_introl eq_refl)) Hx eq_refl
              (fun H => Nat.neq_0_succ 0 H))
    as [H1 [H2 [H3 _]]].
  split; [exact H1|]. split; [exact H2|exact H3].
Defined.

(** ** initTabs *)

(** X13: [initTabs] never deselects a panel, leaves every panel outside the
    new list untouched, and changes nothing at all when run a second time on
    the same list. *)
Theorem initTabs_only_adds_a_selection panels s :
  (forall p, is_selected s p = true ->
             is_selected (final (initTabs panels s)) p = true) /\
  (forall p, ~ In p panels -> heap (final (initTabs panels s)) p = heap s p) /\
  heap (final (initTabs panels (final (initTabs panels s)))) =
  heap (final (initTabs panels s)).
Proof.
  destruct (findSelectedTab (with_tabs panels s)) as [cur|] eqn:Hc.
  { rewrite (initTabs_keeps_selection panels s cur Hc). cbn [final].
    split; [auto|]. split; [auto|].
    now rewrite (initTabs_keeps_selection panels
                   (perform MarkForCheck (with_tabs panels s)) cur Hc). }
  assert (Hn := findSelectedTab_none _ Hc).
  destruct panels as [|a l].
  { rewrite !initTabs_empty. cbn. auto. }
  destruct (tab_at (initial_index s (a :: l)) (with_tabs (a :: l) s))
    as [target|] eqn:Ht.
  - rewrite (initTabs_selects (a :: l) s target Hn Ht). cbn [final].
    assert (Hin : In target (a :: l)) by exact (tab_at_in _ _ _ Ht).
    split.
    { intros p Hp. unfold is_selected. cbn. rewrite selected_set_selected.
      destruct (Nat.eqb p target); [reflexivity|exact Hp]. }
    split.
    { intros p Hp. cbn.
      rewrite (set_selected_at target true (with_tabs (a :: l) s) p);
        [reflexivity|]. intros ->. now apply Hp. }
    set (s1 := perform MarkForCheck
                 (with_tabChanged true
                    (set_selected target true (with_tabs (a :: l) s)))).
    assert (Hsel : is_selected (with_tabs (a :: l) s1) target = true).
    { unfold is_selected. cbn. rewrite selected_set_selected.
      now rewrite Nat.eqb_refl. }
    destruct (find_selected_exists (with_tabs (a :: l) s1) target Hin Hsel)
      as [c Hc'].
    now rewrite (initTabs_keeps_selection (a :: l) s1 c Hc').
  - rewrite (initTabs_throws (a :: l) s Hn); [|discriminate|exact Ht].
    cbn [final]. split; [auto|]. split; [auto|].
    rewrite (initTabs_throws (a :: l) (with_tabs (a :: l) s));
      [reflexivity|exact Hn|discriminate|exact Ht].
Qed.

Lemma initTabs_only_adds_a_selection_witness :
  is_selected (final (initTabs [1; 2] three_tabs)) 0 = true /\
  heap (final (initTabs [1; 2] three_tabs)) 0 = heap three_tabs 0 /\
  map (is_selected (final (initTabs [1; 2] three_tabs))) [1; 2] = [true; false].
Proof.
  destruct (initTabs_only_adds_a_selection [1; 2] three_tabs) as [Hk [Ho _]].
  split; [apply Hk; reflexivity|]. split; [|reflexivity].
  apply Ho. intros [H|[H|[]]]; discriminate H.
Defined.

(** ** The dirty flag *)

Lemma set_activeIndex_returned val s :
  threw (set_activeIndex val s) = false ->
  heap (final (set_activeIndex val s)) = heap s \/
  tabChanged (final (set_activeIndex val s)) = true.
Proof.
  intros Hok.
  destruct (preventActiveIndexPropagation s) eqn:Hg.
  { left. now rewrite (set_activeIndex_pending val s Hg). }
  destruct val as [k|];
    [|left; now rewrite (set_activeIndex_past_end s None Hg I)].
  destruct (Z.lt_ge_cases k (Z.of_nat (length (tabs s)))) as [Hlt|Hge];
    [|left; now rewrite (set_activeIndex_past_end s (Some k) Hg Hge)].
  destruct (tabs s) as [|a l] eqn:Hl.
  { cbn in Hlt. left.
    destruct (findSelectedTab s) as [cur|] eqn:Hc.
    - apply findSelectedTab_some in Hc. rewrite Hl in Hc. destruct Hc as [[] _].
    - assert (E : set_activeIndex (Some k) s = Ok tt (with_activeIndex (Some k) s)).
      { unfold set_activeIndex, bind, modify, get. cbn. rewrite Hg, Hl. reflexivity. }
      now rewrite E. }
  assert (Hne : tabs s <> []) by (rewrite Hl; discriminate).
  rewrite <- Hl in Hlt.
  destruct (findSelectedTab s) as [cur|] eqn:Hc.
  - destruct (Z.lt_ge_cases k 0) as [Hneg|Hpos].
    + rewrite (set_activeIndex_negative s k cur Hg Hc Hneg) in Hok. discriminate.
    + destruct (tab_at_in_range k s (conj Hpos Hlt)) as [target Ht].
      right. rewrite (set_activeIndex_in_range s k cur target Hg Hc Ht).
      cbn [final]. now rewrite tabChanged_scroll_requested.
  - rewrite (set_activeIndex_unselected s k Hg (findSelectedTab_none s Hc) Hlt Hne)
      in Hok. discriminate.
Qed.

Lemma unchanged_store_selection s s' :
  heap s' = heap s -> ~ selection_changed s s'.
Proof. intros E [p Hp]. apply Hp. unfold is_selected. now rewrite E. Qed.

(** X14: whenever [initTabs], [closeTab], an assignment to [activeIndex] that
    returns normally, or [open] (with subscribers that leave the panels and
    the flag alone) changes the [selected] flag of any panel, the dirty flag
    [tabChanged] is set when the call ends. *)
Theorem selection_change_sets_the_dirty_flag s :
  (forall panels,
     selection_changed s (final (initTabs panels s)) ->
     tabChanged (final (initTabs panels s)) = true) /\
  (forall tab,
     selection_changed s (final (closeTab tab s)) ->
     tabChanged (final (closeTab tab s)) = true) /\
  (forall val,
     threw (set_activeIndex val s) = false ->
     selection_changed s (final (set_activeIndex val s)) ->
     tabChanged (final (set_activeIndex val s)) = true) /\
  (forall subs event tab,
     passive subs ->
     (forall i st, preventActiveIndexPropagation st = true ->
                   tabChanged (on_activeIndexChange subs i st) = tabChanged st) ->
     (forall e st, tabChanged (on_onChange subs e st) = tabChanged st) ->
     selection_changed s (final (open subs event tab s)) ->
     tabChanged (final (open subs event tab s)) = true).
Proof.
  split; [|split; [|split]].
  - intros panels Hch.
    destruct (initTabs_cases panels s) as [E|[E|[target [Hn E]]]].
    + elim (unchanged_store_selection s _ (f_equal heap E) Hch).
    + elim (unchanged_store_selection s _ (f_equal heap E) Hch).
    + now rewrite E.
  - intros tab Hch.
    destruct (closeTab_cases tab s) as [E|[[Hs E]|[_ [s2 [Hs2 E]]]]].
    + elim (unchanged_store_selection s _ (f_equal heap E) Hch).
    + exfalso. destruct Hch as [p Hp]. apply Hp. rewrite E.
      unfold is_selected. apply selected_set_closed.
    + rewrite E.
      replace (tabChanged (set_closed tab true s2)) with (tabChanged s2)
        by reflexivity.
      destruct Hs2 as [->|[p [_ [_ ->]]]]; now rewrite !tabChanged_set_selected.
  - intros val Hok Hch.
    destruct (set_activeIndex_returned val s Hok) as [E|E]; [|exact E].
    elim (unchanged_store_selection s _ E Hch).
  - intros subs event tab Hp Hi Hc Hch.
    destruct (is_disabled s tab) eqn:Hd.
    { exfalso. apply (unchanged_store_selection s _) in Hch; [exact Hch|].
      rewrite (open_disabled subs event tab s Hd). cbn.
      apply heap_default_prevented. }
    destruct (is_selected s tab) eqn:Hs.
    { exfalso. apply (unchanged_store_selection s _) in Hch; [exact Hch|].
      rewrite (open_selected subs event tab s Hd Hs). cbn.
      apply heap_default_prevented. }
    rewrite (open_unselected_final subs event tab s Hd Hs).
    destruct event; cbn; rewrite tabChanged_scroll_requested, Hc; cbn;
      rewrite Hi by reflexivity; cbn;
      unfold selection_moved_to; now rewrite tabChanged_set_selected.
Qed.

Lemma selection_change_sets_the_dirty_flag_witness :
  tabChanged (final (open write_back_subscriber (Some 7) 2
                       (with_tabChanged false three_tabs))) = true /\
  tabChanged (final (closeTab 1 (with_tabChanged false three_tabs_second))) = true.
Proof.
  destruct (selection_change_sets_the_dirty_flag (with_tabChanged false three_tabs))
    as [_ [_ [_ Ho]]].
  destruct (selection_change_sets_the_dirty_flag
              (with_tabChanged false three_tabs_second)) as [_ [Hc _]].
  split.
  - apply (Ho write_back_subscriber (Some 7) 2 passive_write_back_subscriber).
    + intros i st Hg. cbn. unfold write_back.
      now rewrite (set_activeIndex_pending (Some i) st Hg).
    + reflexivity.
    + exists 2. discriminate.
  - apply (Hc 1). exists 0. vm_compute. discriminate.
Defined.

(** The one way to change the selection without the flag: a negative index
    deselects the selected panel and throws before the flag is set. *)
Example negative_activeIndex_deselects_without_dirty_flag :
  threw (set_activeIndex (Some (-1)%Z) (with_tabChanged false three_tabs)) = true /\
  is_selected (final (set_activeIndex (Some (-1)%Z) (with_tabChanged false three_tabs))) 0
  = false /\
  tabChanged (final (set_activeIndex (Some (-1)%Z) (with_tabChanged false three_tabs)))
  = false.
Proof. repeat split. Qed.

(** ** Traversal of the header strip *)

Lemma findNextHeaderAction_at_some pos siblings p :
  findNextHeaderAction_at pos siblings = Some p ->
  exists k e, p = pos + k /\ nth_error siblings k = Some e /\
              passed_over e = false /\
              forall j e', j < k -> nth_error siblings j = Some e' ->
                           passed_over e' = true.
Proof.
  revert pos. induction siblings as [|h l IH]; intros pos H; [discriminate|].
  cbn in H. destruct (passed_over h) eqn:Hh.
  - destruct (IH (S pos) H) as [k [e [-> [Hn [He Hb]]]]].
    exists (S k), e. split; [lia|]. split; [exact Hn|]. split; [exact He|].
    intros [|j] e' Hj Hn'; cbn in Hn'.
    + now injection Hn' as <-.
    + apply (Hb j e'); [lia|exact Hn'].
  - injection H as <-. exists 0, h. split; [lia|]. split; [reflexivity|].
    split; [exact Hh|]. intros j e' Hj. lia.
Qed.

Lemma findNextHeaderAction_at_none pos siblings :
  findNextHeaderAction_at pos siblings = None ->
  forall j e, nth_error siblings j = Some e -> passed_over e = true.
Proof.
  revert pos. induction siblings as [|h l IH]; intros pos H j e Hn.
  - destruct j; discriminate.
  - cbn in H. destruct (passed_over h) eqn:Hh; [|discriminate].
    destruct j as [|j]; cbn in Hn.
    + now injection Hn as <-.
    + exact (IH (S pos) H j e Hn).
Qed.

Lemma findPrevHeaderAction_at_eq dom pos :
  findPrevHeaderAction_at dom pos =
  match nth_error dom pos with
  | None => None
  | Some headerElement =>
      if passed_over headerElement
      then match pos with
           | 0 => None
           | S before => findPrevHeaderAction_at dom before
           end
      else Some pos
  end.
Proof. destruct pos; reflexivity. Qed.

Lemma findPrevHeaderAction_at_some dom pos p :
  findPrevHeaderAction_at dom pos = Some p ->
  p <= pos /\ reachable_header dom p /\
  forall q, p < q <= pos -> ~ reachable_header dom q.
Proof.
  revert p. induction pos as [|pos IH]; intros p H;
    rewrite findPrevHeaderAction_at_eq in H.
  - destruct (nth_error dom 0) as [e|] eqn:Hn; [|discriminate].
    destruct (passed_over e) eqn:He; [discriminate|]. injection H as <-.
    split; [lia|]. split; [exists e; auto|]. intros q Hq. lia.
  - destruct (nth_error dom (S pos)) as [e|] eqn:Hn; [|discriminate].
    destruct (passed_over e) eqn:He.
    + destruct (IH p H) as [Hle [Hr Hb]]. split; [lia|]. split; [exact Hr|].
      intros q Hq [e' [Hn' He']].
      destruct (Nat.eq_dec q (S pos)) as [->|Hne].
      * rewrite Hn in Hn'. injection Hn' as <-. congruence.
      * apply (Hb q); [lia|]. exists e'. auto.
    + injection H as <-. split; [lia|]. split; [exists e; auto|].
      intros q Hq. lia.
Qed.

Lemma findPrevHeaderAction_at_none dom pos :
  pos < length dom ->
  findPrevHeaderAction_at dom pos = None ->
  forall q, q <= pos -> ~ reachable_header dom q.
Proof.
  induction pos as [|pos IH]; intros Hlt H q Hq [e' [Hn' He']];
    rewrite findPrevHeaderAction_at_eq in H.
  - assert (q = 0) by lia. subst q. rewrite Hn' in H. rewrite He' in H. discriminate.
  - destruct (nth_error dom (S pos)) as [e|] eqn:Hn.
    + destruct (passed_over e) eqn:He; [|discriminate].
      destruct (Nat.eq_dec q (S pos)) as [->|Hne].
      * rewrite Hn in Hn'. injection Hn' as <-. congruence.
      * apply (IH ltac:(lia) H q ltac:(lia)). exists e'. auto.
    + apply nth_error_None in Hn. lia.
Qed.

Lemma reachable_header_in_range dom q : reachable_header dom q -> q < length dom.
Proof. intros [e [Hn _]]. apply nth_error_Some. congruence. Qed.

Lemma findNextHeaderAction_from dom first :
  (forall p, findNextHeaderAction_at first (skipn first dom) = Some p ->
     first <= p /\ reachable_header dom p /\
     forall q, first <= q < p -> ~ reachable_header dom q) /\
  (findNextHeaderAction_at first (skipn first dom) = None ->
     forall q, first <= q -> ~ reachable_header dom q).
Proof.
  split.
  - intros p H.
    destruct (findNextHeaderAction_at_some _ _ _ H) as [k [e [-> [Hn [He Hb]]]]].
    rewrite nth_error_skipn in Hn.
    split; [lia|]. split; [exists e; auto|].
    intros q Hq [e' [Hn' He']].
    assert (Hq' : nth_error (skipn first dom) (q - first) = Some e').
    { rewrite nth_error_skipn. now replace (first + (q - first)) with q by lia. }
    rewrite (Hb (q - first) e' ltac:(lia) Hq') in He'. discriminate.
  - intros H q Hq [e' [Hn' He']].
    assert (Hq' : nth_error (skipn first dom) (q - first) = Some e').
    { rewrite nth_error_skipn. now replace (first + (q - first)) with q by lia. }
    rewrite (findNextHeaderAction_at_none _ _ H _ _ Hq') in He'. discriminate.
Qed.

Lemma findFirstHeaderAction_spec dom :
  (forall p, findFirstHeaderAction dom = Some p ->
     reachable_header dom p /\ forall q, q < p -> ~ reachable_header dom q) /\
  (findFirstHeaderAction dom = None -> forall q, ~ reachable_header dom q).
Proof.
  unfold findFirstHeaderAction, findNextHeaderAction.
  destruct (findNextHeaderAction_from dom 0) as [Hs Hn]. split.
  - intros p H. destruct (Hs p H) as [_ [Hr Hb]]. split; [exact Hr|].
    intros q Hq. apply Hb. lia.
  - intros H q. apply (Hn H). lia.
Qed.

Lemma findLastHeaderAction_spec dom :
  (forall p, findLastHeaderAction dom = Some p ->
     reachable_header dom p /\ forall q, p < q -> ~ reachable_header dom q) /\
  (findLastHeaderAction dom = None -> forall q, ~ reachable_header dom q).
Proof.
  unfold findLastHeaderAction, findPrevHeaderAction.
  destruct (length dom) as [|lastEl] eqn:Hlen.
  { split; [discriminate|]. intros _ q Hr.
    apply reachable_header_in_range in Hr. lia. }
  destruct (nth_error dom lastEl) as [e|] eqn:Hn;
    [|apply nth_error_None in Hn; lia].
  assert (Hlast : forall q, lastEl < q -> ~ reachable_header dom q).
  { intros q Hq Hr. apply reachable_header_in_range in Hr. lia. }
  destruct (is_inkbar e) eqn:Hi.
  - assert (Hle : ~ reachable_header dom lastEl).
    { intros [e' [Hn' He']]. rewrite Hn in Hn'. injection Hn' as <-.
      unfold passed_over in He'. rewrite Hi in He'.
      now rewrite orb_true_r in He'. }
    destruct lastEl as [|before].
    + split; [discriminate|]. intros _ q.
      destruct q; [exact Hle|apply Hlast; lia].
    + split.
      * intros p H. destruct (findPrevHeaderAction_at_some _ _ _ H) as [Hp [Hr Hb]].
        split; [exact Hr|]. intros q Hq.
        destruct (Nat.lt_ge_cases q (S before)) as [Hlt|Hge]; [apply Hb; lia|].
        destruct (Nat.eq_dec q (S before)) as [->|Hne]; [exact Hle|].
        apply Hlast. lia.
      * intros H q.
        destruct (Nat.lt_ge_cases q (S before)) as [Hlt|Hge].
        -- apply (findPrevHeaderAction_at_none dom before ltac:(lia) H). lia.
        -- destruct (Nat.eq_dec q (S before)) as [->|Hne]; [exact Hle|].
           apply Hlast. lia.
  - split.
    + intros p H. destruct (findPrevHeaderAction_at_some _ _ _ H) as [Hp [Hr Hb]].
      split; [exact Hr|]. intros q Hq.
      destruct (Nat.lt_ge_cases lastEl q) as [Hlt|Hge]; [now apply Hlast|].
      apply Hb. lia.
    + intros H q.
      destruct (Nat.lt_ge_cases lastEl q) as [Hlt|Hge]; [now apply Hlast|].
      apply (findPrevHeaderAction_at_none dom lastEl ltac:(lia) H). lia.
Qed.

(** X15: over any children of the navbar, the traversal functions return
    the nearest child that is neither disabled nor the ink bar: after,
    respectively before, the given child for [findNextHeaderAction] and
    [findPrevHeaderAction], from the start for [findFirstHeaderAction], from
    the end for [findLastHeaderAction]; each returns [null] exactly when
    there is no such child in its direction. *)
Theorem header_traversal_finds_the_nearest_reachable dom tabElement :
  tabElement < length dom ->
  (forall p, findNextHeaderAction dom tabElement false = Some p ->
     tabElement < p /\ reachable_header dom p /\
     forall q, tabElement < q < p -> ~ reachable_header dom q) /\
  (findNextHeaderAction dom tabElement false = None ->
     forall q, tabElement < q -> ~ reachable_header dom q) /\
  (forall p, findPrevHeaderAction dom tabElement false = Some p ->
     p < tabElement /\ reachable_header dom p /\
     forall q, p < q < tabElement -> ~ reachable_header dom q) /\
  (findPrevHeaderAction dom tabElement false = None ->
     forall q, q < tabElement -> ~ reachable_header dom q) /\
  (forall p, findFirstHeaderAction dom = Some p ->
     reachable_header dom p /\ forall q, q < p -> ~ reachable_header dom q) /\
  (findFirstHeaderAction dom = None -> forall q, ~ reachable_header dom q) /\
  (forall p, findLastHeaderAction dom = Some p ->
     reachable_header dom p /\ forall q, p < q -> ~ reachable_header dom q) /\
  (findLastHeaderAction dom = None -> forall q, ~ reachable_header dom q).
Proof.
  intros Hlt.
  destruct (findNextHeaderAction_from dom (S tabElement)) as [Hns Hnn].
  destruct (findFirstHeaderAction_spec dom) as [Hfs Hfn].
  destruct (findLastHeaderAction_spec dom) as [Hls Hln].
  unfold findNextHeaderAction, findPrevHeaderAction.
  split.
  { intros p H. destruct (Hns p H) as [Hp [Hr Hb]].
    split; [lia|]. split; [exact Hr|]. intros q Hq. apply Hb. lia. }
  split; [intros H q Hq; apply (Hnn H); lia|].
  split.
  { intros p H. destruct tabElement as [|before]; [discriminate|].
    destruct (findPrevHeaderAction_at_some _ _ _ H) as [Hle [Hr Hb]].
    split; [lia|]. split; [exact Hr|]. intros q Hq. apply Hb. lia. }
  split.
  { intros H q Hq. destruct tabElement as [|before]; [lia|].
    apply (findPrevHeaderAction_at_none dom before ltac:(lia) H). lia. }
  split; [exact Hfs|]. split; [exact Hfn|]. split; [exact Hls|exact Hln].
Qed.

Lemma header_traversal_finds_the_nearest_reachable_witness :
  findNextHeaderAction (navbar_children second_disabled) 0 false = Some 4 /\
  reachable_header (navbar_children second_disabled) 4 /\
  ~ reachable_header (navbar_children second_disabled) 2.
Proof.
  assert (Hlt : 0 < length (navbar_children second_disabled)) by (vm_compute; lia).
  destruct (header_traversal_finds_the_nearest_reachable
              (navbar_children second_disabled) 0 Hlt) as [Hn _].
  destruct (Hn 4 eq_refl) as [_ [Hr Hb]].
  split; [reflexivity|]. split; [exact Hr|]. apply Hb. lia.
Defined.

(** ** The header strip of a state *)

Lemma render_tabs_header i0 l h pos i d a :
  nth_error (render_tabs i0 l h) pos = Some (HeaderAction i d a) ->
  i0 <= i /\
  exists tab, nth_error l (i - i0) = Some tab /\ closed (h tab) = false /\
              d = disabled (h tab) /\ a = selected (h tab).
Proof.
  revert i0 pos. induction l as [|t l IH]; intros i0 pos H.
  - destruct pos; discriminate.
  - cbn [render_tabs] in H. destruct (closed (h t)) eqn:Hc.
    + cbn in H. destruct (IH (S i0) pos H) as [Hle [tab [Hn Hr]]].
      split; [lia|]. exists tab. split; [|exact Hr].
      replace (i - i0) with (S (i - S i0)) by lia. exact Hn.
    + destruct pos as [|[|pos]]; cbn in H.
      * injection H as <- <- <-. split; [lia|]. exists t.
        rewrite Nat.sub_diag. auto.
      * discriminate.
      * destruct (IH (S i0) pos H) as [Hle [tab [Hn Hr]]].
        split; [lia|]. exists tab. split; [|exact Hr].
        replace (i - i0) with (S (i - S i0)) by lia. exact Hn.
Qed.

Lemma render_tabs_position i0 l h j tab :
  nth_error l j = Some tab -> closed (h tab) = false ->
  exists pos, nth_error (render_tabs i0 l h) pos =
              Some (HeaderAction (i0 + j) (disabled (h tab)) (selected (h tab))).
Proof.
  revert i0 j. induction l as [|t l IH]; intros i0 j Hn Hc.
  - destruct j; discriminate.
  - cbn [render_tabs]. destruct j as [|j]; cbn in Hn.
    + injection Hn as ->. rewrite Hc. exists 0. cbn. now rewrite Nat.add_0_r.
    + destruct (IH (S i0) j Hn Hc) as [pos Hp].
      replace (i0 + S j) with (S i0 + j) by lia.
      destruct (closed (h t)).
      * exists pos. exact Hp.
      * exists (S (S pos)). exact Hp.
Qed.

Lemma render_tabs_in_order i0 l h pos pos' i d a i' d' a' :
  nth_error (render_tabs i0 l h) pos = Some (HeaderAction i d a) ->
  nth_error (render_tabs i0 l h) pos' = Some (HeaderAction i' d' a') ->
  pos < pos' -> i < i'.
Proof.
  revert i0 pos pos'. induction l as [|t l IH]; intros i0 pos pos' H H' Hlt.
  - destruct pos; discriminate.
  - cbn [render_tabs] in H, H'. destruct (closed (h t)).
    + exact (IH (S i0) pos pos' H H' Hlt).
    + destruct pos as [|[|pos]]; cbn in H.
      * injection H as <- <- <-.
        destruct pos' as [|[|pos']]; cbn in H'; [lia|discriminate|].
        destruct (render_tabs_header _ _ _ _ _ _ _ H') as [Hle _]. lia.
      * discriminate.
      * destruct pos' as [|[|pos']]; [lia|lia|]. cbn in H'.
        apply (IH (S i0) pos pos' H H'). lia.
Qed.

Lemma reachable_header_panel s pos :
  reachable_header (navbar_children s) pos ->
  exists i a p,
    nth_error (navbar_children s) pos = Some (HeaderAction i false a) /\
    nth_error (tabs s) i = Some p /\ reachable_panel s p = true.
Proof.
  intros [e [Hn He]]. destruct e as [i d a|]; [|discriminate].
  unfold passed_over in He. cbn in He. rewrite orb_false_r in He. subst d.
  destruct (render_tabs_header 0 (tabs s) (heap s) pos i false a Hn)
    as [_ [p [Hp [Hc [Hd _]]]]].
  rewrite Nat.sub_0_r in Hp.
  exists i, a, p. split; [exact Hn|]. split; [exact Hp|].
  unfold reachable_panel, is_closed, is_disabled. now rewrite Hc, <- Hd.
Qed.

Lemma reachable_panel_header s j p :
  nth_error (tabs s) j = Some p -> reachable_panel s p = true ->
  exists pos a, nth_error (navbar_children s) pos = Some (HeaderAction j false a) /\
                reachable_header (navbar_children s) pos.
Proof.
  intros Hn Hr. unfold reachable_panel, is_closed, is_disabled in Hr.
  apply andb_true_iff in Hr. destruct Hr as [Hc Hd].
  apply negb_true_iff in Hc, Hd.
  destruct (render_tabs_position 0 (tabs s) (heap s) j p Hn Hc) as [pos Hp].
  cbn in Hp. rewrite Hd in Hp.
  exists pos, (selected (heap s p)). split; [exact Hp|].
  exists (HeaderAction j false (selected (heap s p))). auto.
Qed.

(** X16: on the header strip of a state, [findFirstHeaderAction] is the
    header of the first panel of [tabs] that is neither closed nor disabled
    and [findLastHeaderAction] the header of the last such panel; each is
    [null] exactly when every panel of [tabs] is closed or disabled. *)
Theorem home_and_end_reach_the_outermost_enabled_panels s :
  (forall pos, findFirstHeaderAction (navbar_children s) = Some pos ->
     exists i p,
       index_attribute (navbar_children s) (Some pos) = Some i /\
       nth_error (tabs s) i = Some p /\ reachable_panel s p = true /\
       forall j q, j < i -> nth_error (tabs s) j = Some q ->
                   reachable_panel s q = false) /\
  (forall pos, findLastHeaderAction (navbar_children s) = Some pos ->
     exists i p,
       index_attribute (navbar_children s) (Some pos) = Some i /\
       nth_error (tabs s) i = Some p /\ reachable_panel s p = true /\
       forall j q, i < j -> nth_error (tabs s) j = Some q ->
                   reachable_panel s q = false) /\
  (findFirstHeaderAction (navbar_children s) = None ->
     forall q, In q (tabs s) -> reachable_panel s q = false) /\
  (findLastHeaderAction (navbar_children s) = None ->
     forall q, In q (tabs s) -> reachable_panel s q = false).
Proof.
  destruct (findFirstHeaderAction_spec (navbar_children s)) as [Hfs Hfn].
  destruct (findLastHeaderAction_spec (navbar_children s)) as [Hls Hln].
  assert (Hnone : (forall pos, ~ reachable_header (navbar_children s) pos) ->
                  forall q, In q (tabs s) -> reachable_panel s q = false).
  { intros Hno q Hq. destruct (reachable_panel s q) eqn:Hr; [|reflexivity].
    apply In_nth_error in Hq. destruct Hq as [j Hj].
    destruct (reachable_panel_header s j q Hj Hr) as [pos [a [_ Hp]]].
    elim (Hno pos Hp). }
  split; [|split; [|split]].
  - intros pos H. destruct (Hfs pos H) as [Hr Hb].
    destruct (reachable_header_panel s pos Hr) as [i [a [p [Hn [Hp Hrp]]]]].
    exists i, p. split; [cbn; now rewrite Hn|]. split; [exact Hp|].
    split; [exact Hrp|].
    intros j q Hj Hq. destruct (reachable_panel s q) eqn:Hrq; [|reflexivity].
    exfalso.
    destruct (reachable_panel_header s j q Hq Hrq) as [pos' [a' [Hn' Hr']]].
    destruct (Nat.lt_trichotomy pos' pos) as [Hlt|[->|Hgt]].
    + exact (Hb pos' Hlt Hr').
    + rewrite Hn in Hn'. injection Hn' as -> _. lia.
    + assert (i < j) by exact (render_tabs_in_order _ _ _ _ _ _ _ _ _ _ _ Hn Hn' Hgt).
      lia.
  - intros pos H. destruct (Hls pos H) as [Hr Hb].
    destruct (reachable_header_panel s pos Hr) as [i [a [p [Hn [Hp Hrp]]]]].
    exists i, p. split; [cbn; now rewrite Hn|]. split; [exact Hp|].
    split; [exact Hrp|].
    intros j q Hj Hq. destruct (reachable_panel s q) eqn:Hrq; [|reflexivity].
    exfalso.
    destruct (reachable_panel_header s j q Hq Hrq) as [pos' [a' [Hn' Hr']]].
    destruct (Nat.lt_trichotomy pos' pos) as [Hlt|[->|Hgt]].
    + assert (j < i) by exact (render_tabs_in_order _ _ _ _ _ _ _ _ _ _ _ Hn' Hn Hlt).
      lia.
    + rewrite Hn in Hn'. injection Hn' as -> _. lia.
    + exact (Hb pos' Hgt Hr').
  - intros H. apply Hnone. now apply Hfn.
  - intros H. apply Hnone. now apply Hln.
Qed.

Lemma home_and_end_reach_the_outermost_enabled_panels_witness :
  findFirstHeaderAction (navbar_children first_disabled) = Some 2 /\
  exists i p,
    index_attribute (navbar_children first_disabled) (Some 2) = Some i /\
    nth_error (tabs first_disabled) i = Some p /\
    reachable_panel first_disabled p = true.
Proof.
  split; [reflexivity|].
  destruct (proj1 (home_and_end_reach_the_outermost_enabled_panels first_disabled)
              2 eq_refl) as [i [p [Hi [Hp [Hr _]]]]].
  exists i, p. split; [exact Hi|]. split; [exact Hp|exact Hr].
Defined.

(** ** Keyboard navigation *)

Lemma open_returns subs event tab s :
  open subs event tab s = Ok tt (final (open subs event tab s)).
Proof.
  destruct (is_disabled s tab) eqn:Hd.
  { now rewrite (open_disabled subs event tab s Hd). }
  destruct (is_selected s tab) eqn:Hs.
  - now rewrite (open_selected subs event tab s Hd Hs).
  - assert (E := open_unselected subs event tab s Hd Hs). cbv zeta in E.
    now rewrite E.
Qed.

Lemma changeFocusedTab_reachable subs event el pg :
  passive subs ->
  reachable_header (navbar_children (view pg)) el ->
  handled (changeFocusedTab subs event (Some el)
             (index_attribute (navbar_children (view pg)) (Some el))) pg.
Proof.
  intros Hp Hr.
  destruct (reachable_header_panel (view pg) el Hr) as [i [a [p [Hn [Hi Hrp]]]]].
  assert (Hd : is_disabled (view pg) p = false).
  { unfold reachable_panel in Hrp. apply andb_true_iff in Hrp.
    destruct Hrp as [_ Hd]. now apply negb_true_iff in Hd. }
  unfold handled, changeFocusedTab, index_attribute. rewrite Hn. cbn -[open].
  destruct (selectOnFocus pg) eqn:Hf.
  - rewrite Hi. unfold lift. cbn -[open].
    rewrite (open_returns subs (Some (key_event event)) p (view pg)).
    eexists. split; [reflexivity|]. unfold focus_moved. cbn -[open].
    split; [|split].
    + intros _. exists el, i, a, p. repeat split; try assumption.
      intros _. now apply open_enabled_selects.
    + intros Hno. elim (Hno el Hr).
    + rewrite Hf. discriminate.
  - eexists. split; [reflexivity|]. unfold focus_moved. cbn.
    split; [|split].
    + intros _. exists el, i, a, p. repeat split; try assumption.
      rewrite Hf. discriminate.
    + intros Hno. elim (Hno el Hr).
    + reflexivity.
Qed.

Lemma changeFocusedTab_nothing subs event index pg :
  (forall pos, ~ reachable_header (navbar_children (view pg)) pos) ->
  handled (changeFocusedTab subs event None index) pg.
Proof.
  intros Hno. exists pg. split; [reflexivity|]. unfold focus_moved.
  split; [|split].
  - intros [pos Hr]. elim (Hno pos Hr).
  - auto.
  - reflexivity.
Qed.

Lemma handled_then_preventDefault h event pg :
  handled h pg ->
  exists pg', and_then h (key_preventDefault event) pg = Done pg' /\
              focus_moved pg pg'.
Proof.
  intros [pg1 [E [H1 [H2 H3]]]].
  exists (with_view (perform (PreventDefault (key_event event)) (view pg1)) pg1).
  split; [unfold and_then; now rewrite E|].
  unfold focus_moved. cbn. split; [|split]; assumption.
Qed.

Lemma onTabHomeKey_handled subs event pg :
  passive subs -> handled (onTabHomeKey subs event) pg.
Proof.
  intros Hp. unfold handled, onTabHomeKey. cbv beta zeta.
  apply handled_then_preventDefault.
  destruct (findFirstHeaderAction_spec (navbar_children (view pg))) as [Hs Hn].
  destruct (findFirstHeaderAction (navbar_children (view pg))) as [el|].
  - apply changeFocusedTab_reachable; [exact Hp|]. now apply Hs.
  - apply changeFocusedTab_nothing. now apply Hn.
Qed.

Lemma onTabEndKey_handled subs event pg :
  passive subs -> handled (onTabEndKey subs event) pg.
Proof.
  intros Hp. unfold handled, onTabEndKey. cbv beta zeta.
  apply handled_then_preventDefault.
  destruct (findLastHeaderAction_spec (navbar_children (view pg))) as [Hs Hn].
  destruct (findLastHeaderAction (navbar_children (view pg))) as [el|].
  - apply changeFocusedTab_reachable; [exact Hp|]. now apply Hs.
  - apply changeFocusedTab_nothing. now apply Hn.
Qed.

Lemma onTabArrowLeftKey_handled subs event pg :
  passive subs -> handled (onTabArrowLeftKey subs event) pg.
Proof.
  intros Hp. unfold handled, onTabArrowLeftKey. cbv beta zeta.
  apply handled_then_preventDefault.
  unfold findPrevHeaderAction.
  destruct (currentTarget event) as [|before].
  { now apply onTabEndKey_handled. }
  destruct (findPrevHeaderAction_at (navbar_children (view pg)) before) as [el|] eqn:E.
  - apply changeFocusedTab_reachable; [exact Hp|].
    now destruct (findPrevHeaderAction_at_some _ _ _ E) as [_ [Hr _]].
  - now apply onTabEndKey_handled.
Qed.

Lemma onTabArrowRightKey_handled subs event pg :
  passive subs -> handled (onTabArrowRightKey subs event) pg.
Proof.
  intros Hp. unfold handled, onTabArrowRightKey. cbv beta zeta.
  apply handled_then_preventDefault.
  unfold findNextHeaderAction.
  destruct (findNextHeaderAction_from (navbar_children (view pg))
              (S (currentTarget event))) as [Hs _].
  destruct (findNextHeaderAction_at (S (currentTarget event))
              (skipn (S (currentTarget event)) (navbar_children (view pg))))
    as [el|].
  - apply changeFocusedTab_reachable; [exact Hp|].
    now destruct (Hs el eq_refl) as [_ [Hr _]].
  - now apply onTabHomeKey_handled.
Qed.

(** X17: a navigation key (arrows, Home, End, PageUp, PageDown) on the header
    strip of the current state never fails.  If some panel of [tabs] is
    neither closed nor disabled, the focus ends on the header of such a panel
    and, under [selectOnFocus], that panel is selected when the handler
    returns; if there is none, focus and panels stay as they were.  Without
    [selectOnFocus] no panel changes (subscribers not touching the panels). *)
Theorem navigation_keys_focus_a_reachable_panel subs event tab pg :
  passive subs ->
  In (code event) navigation_codes ->
  failed (onTabKeyDown subs event tab pg) = false /\
  ((exists q, In q (tabs (view pg)) /\ reachable_panel (view pg) q = true) ->
     exists pos i a p,
       activeElement (page_of (onTabKeyDown subs event tab pg)) = Some pos /\
       nth_error (navbar_children (view pg)) pos = Some (HeaderAction i false a) /\
       nth_error (tabs (view pg)) i = Some p /\
       reachable_panel (view pg) p = true /\
       (selectOnFocus pg = true ->
        is_selected (view (page_of (onTabKeyDown subs event tab pg))) p = true)) /\
  ((forall q, In q (tabs (view pg)) -> reachable_panel (view pg) q = false) ->
     activeElement (page_of (onTabKeyDown subs event tab pg)) = activeElement pg /\
     heap (view (page_of (onTabKeyDown subs event tab pg))) = heap (view pg)) /\
  (selectOnFocus pg = false ->
     heap (view (page_of (onTabKeyDown subs event tab pg))) = heap (view pg)).
Proof.
  intros Hp Hc.
  assert (H : handled (onTabKeyDown subs event tab) pg).
  { unfold onTabKeyDown. cbn in Hc.
    destruct Hc as [<-|[<-|[<-|[<-|[<-|[<-|[]]]]]]]; cbn.
    - now apply onTabArrowLeftKey_handled.
    - now apply onTabArrowRightKey_handled.
    - now apply onTabHomeKey_handled.
    - now apply onTabEndKey_handled.
    - now apply onTabEndKey_handled.
    - now apply onTabHomeKey_handled. }
  destruct H as [pg' [E [H1 [H2 H3]]]]. rewrite E. cbn [failed page_of].
  split; [reflexivity|]. split; [|split].
  - intros [q [Hq Hr]]. apply H1.
    apply In_nth_error in Hq. destruct Hq as [j Hj].
    destruct (reachable_panel_header (view pg) j q Hj Hr) as [pos [a [_ Hpos]]].
    now exists pos.
  - intros Hno. apply H2. intros pos Hr.
    destruct (reachable_header_panel (view pg) pos Hr) as [i [a [p [_ [Hi Hrp]]]]].
    rewrite (Hno p (nth_error_In _ _ Hi)) in Hrp. discriminate.
  - exact H3.
Qed.

Lemma navigation_keys_focus_a_reachable_panel_witness :
  failed (onTabKeyDown write_back_subscriber (mkKey 7 "ArrowRight"%string 0) 0
            (sample_page true)) = false /\
  activeElement (page_of (onTabKeyDown write_back_subscriber (mkKey 7 "ArrowRight"%string 0) 0
                            (sample_page true))) = Some 4 /\
  map (is_selected (view (page_of (onTabKeyDown write_back_subscriber
                                     (mkKey 7 "ArrowRight"%string 0) 0
                                     (sample_page true))))) [0; 1; 2] =
  [false; false; true].
Proof.
  destruct (navigation_keys_focus_a_reachable_panel write_back_subscriber
              (mkKey 7 "ArrowRight"%string 0) 0 (sample_page true)
              passive_write_back_subscriber (or_intror (or_introl eq_refl)))
    as [Hf _].
  split; [exact Hf|]. split; reflexivity.
Defined.

(** The other keys: Enter and Space open the panel of the header, any other
    code does nothing at all. *)
Example other_keys :
  page_of (onTabKeyDown no_subscribers (mkKey 7 "Space"%string 4) 2 (sample_page false)) =
  with_view (final (open no_subscribers (Some 7) 2 second_disabled)) (sample_page false) /\
  onTabKeyDown no_subscribers (mkKey 7 "Tab"%string 4) 2 (sample_page false) =
  Done (sample_page false).
Proof. split; vm_compute; reflexivity. Qed.

(** ** The active bar *)

Lemma active_header_render i0 l h :
  match active_header (render_tabs i0 l h) with
  | Some i =>
      i0 <= i /\
      exists tab, nth_error l (i - i0) = Some tab /\
                  closed (h tab) = false /\ selected (h tab) = true /\
                  forall j t, j < i - i0 -> nth_error l j = Some t ->
                              closed (h t) = true \/ selected (h t) = false
  | None =>
      forall t, In t l -> closed (h t) = true \/ selected (h t) = false
  end.
Proof.
  revert i0. induction l as [|a l IH]; intros i0; cbn [render_tabs].
  - cbn. intros t [].
  - specialize (IH (S i0)).
    assert (Hstep :
      match active_header (render_tabs (S i0) l h) with
      | Some i =>
          closed (h a) = true \/ selected (h a) = false ->
          i0 <= i /\
          exists tab, nth_error (a :: l) (i - i0) = Some tab /\
                      closed (h tab) = false /\ selected (h tab) = true /\
                      forall j t, j < i - i0 -> nth_error (a :: l) j = Some t ->
                                  closed (h t) = true \/ selected (h t) = false
      | None =>
          closed (h a) = true \/ selected (h a) = false ->
          forall t, In t (a :: l) -> closed (h t) = true \/ selected (h t) = false
      end).
    { destruct (active_header (render_tabs (S i0) l h)) as [i|].
      - intros Ha. destruct IH as [Hle [tab [Hn [Hc [Hs Hmin]]]]].
        split; [lia|]. exists tab.
        replace (i - i0) with (S (i - S i0)) by lia.
        split; [exact Hn|]. split; [exact Hc|]. split; [exact Hs|].
        intros [|j] t Hj Ht; cbn in Ht.
        + injection Ht as <-. exact Ha.
        + apply (Hmin j t); [lia|exact Ht].
      - intros Ha t [<-|Ht]; [exact Ha|now apply IH]. }
    destruct (closed (h a)) eqn:Hc.
    + cbn [app]. destruct (active_header (render_tabs (S i0) l h));
        apply Hstep; now left.
    + cbn [app active_header]. destruct (selected (h a)) eqn:Hs.
      * split; [lia|]. exists a. rewrite Nat.sub_diag.
        split; [reflexivity|]. split; [exact Hc|]. split; [exact Hs|].
        intros j t Hj. lia.
      * destruct (active_header (render_tabs (S i0) l h));
          apply Hstep; now right.
Qed.

Lemma active_header_of_selected s tab :
  exclusive s -> In tab (tabs s) ->
  is_selected s tab = true -> is_closed s tab = false ->
  active_header (navbar_children s) = Some (Z.to_nat (findTabIndex tab s)).
Proof.
  intros Hx Hin Hs Hc.
  destruct (findTabIndex_from_first (tabs s) tab 0%Z Hin) as [Hrange Hmin].
  fold (findTabIndex tab s) in Hrange, Hmin.
  assert (Hat := findTabIndex_spec tab s Hin).
  assert (Hk : nth_error (tabs s) (Z.to_nat (findTabIndex tab s)) = Some tab).
  { unfold tab_at in Hat. destruct (_ <? 0)%Z; [discriminate|exact Hat]. }
  assert (H := active_header_render 0 (tabs s) (heap s)).
  unfold navbar_children.
  destruct (active_header (render_tabs 0 (tabs s) (heap s))) as [i|].
  - destruct H as [_ [t [Hn [Hct [Hst Hbefore]]]]].
    rewrite Nat.sub_0_r in Hn, Hbefore.
    assert (t = tab) by exact (Hx t tab (nth_error_In _ _ Hn) Hin Hst Hs).
    subst t. f_equal.
    destruct (Nat.lt_trichotomy i (Z.to_nat (findTabIndex tab s))) as [Hlt|[E|Hgt]].
    + exfalso. apply (Hmin i); [lia|exact Hn].
    + exact E.
    + exfalso. destruct (Hbefore _ tab Hgt Hk) as [Hc'|Hs'].
      * unfold is_closed in Hc. congruence.
      * unfold is_selected in Hs. congruence.
  - exfalso. destruct (H tab Hin) as [Hc'|Hs'].
    + unfold is_closed in Hc. congruence.
    + unfold is_selected in Hs. congruence.
Qed.

(** X21: in the browser, with selection exclusive and the selected panel
    [tab] of [tabs] not closed, a view check with the dirty flag set puts the
    bar under the header of [tab] (the width of that header, its offset
    relative to the navbar) and clears the flag; a second view check changes
    nothing. *)
Theorem view_check_puts_the_bar_under_the_selected_header geometry tab s bar :
  exclusive s -> In tab (tabs s) ->
  is_selected s tab = true -> is_closed s tab = false ->
  tabChanged s = true ->
  ngAfterViewChecked true true geometry (s, bar) =
    (with_tabChanged false s,
     mkInk (headerOuterWidth geometry (Z.to_nat (findTabIndex tab s)))
           (headerLeft geometry (Z.to_nat (findTabIndex tab s)) - navbarLeft geometry)) /\
  ngAfterViewChecked true true geometry
    (ngAfterViewChecked true true geometry (s, bar)) =
  ngAfterViewChecked true true geometry (s, bar).
Proof.
  intros Hx Hin Hs Hc Hd.
  assert (E : ngAfterViewChecked true true geometry (s, bar) =
    (with_tabChanged false s,
     mkInk (headerOuterWidth geometry (Z.to_nat (findTabIndex tab s)))
           (headerLeft geometry (Z.to_nat (findTabIndex tab s)) - navbarLeft geometry))).
  { unfold ngAfterViewChecked, updateInkBar. rewrite Hd.
    now rewrite (active_header_of_selected s tab Hx Hin Hs Hc). }
  split; [exact E|]. rewrite E. reflexivity.
Qed.

Lemma view_check_puts_the_bar_under_the_selected_header_witness :
  ngAfterViewChecked true true (mkGeometry (fun i => (100 + Z.of_nat i)%Z) (fun i => (120 * Z.of_nat i)%Z) 8)
    (final (open write_back_subscriber (Some 7) 2 three_tabs), mkInk 0 0) =
  (with_tabChanged false (final (open write_back_subscriber (Some 7) 2 three_tabs)),
   mkInk 102 232).
Proof.
  assert (Hx : exclusive (final (open write_back_subscriber (Some 7) 2 three_tabs))).
  { apply (only_one_selected _ 2). intros q Hq Hne.
    vm_compute in Hq. destruct Hq as [<-|[<-|[<-|[]]]];
      [reflexivity|reflexivity|now elim Hne]. }
  exact (proj1 (view_check_puts_the_bar_under_the_selected_header
                  (mkGeometry (fun i => (100 + Z.of_nat i)%Z) (fun i => (120 * Z.of_nat i)%Z) 8)
                  2 (final (open write_back_subscriber (Some 7) 2 three_tabs)) (mkInk 0 0)
                  Hx (or_intror (or_intror (or_introl eq_refl)))
                  eq_refl eq_refl eq_refl)).
Defined.

(** Outside the browser the view check does nothing; and when the selected
    panel is closed (as after closing the first tab) no header is active, so
    the bar stays where it was. *)
Example view_check_edge_cases :
  ngAfterViewChecked false true (mkGeometry (fun _ => 1%Z) (fun _ => 2%Z) 0)
    (three_tabs, mkInk 0 0) = (three_tabs, mkInk 0 0) /\
  snd (ngAfterViewChecked true true (mkGeometry (fun _ => 1%Z) (fun _ => 2%Z) 0)
         (final (closeTab 0 three_tabs), mkInk 5 6)) = mkInk 5 6.
Proof. split; reflexivity. Qed.

(** ** DOM identifiers *)

Lemma append_length a b :
  String.length (String.append a b) = String.length a + String.length b.
Proof. induction a as [|c a IH]; cbn; [reflexivity|now rewrite IH]. Qed.

Lemma append_same_suffix a b suffix :
  String.append a suffix = String.append b suffix -> a = b.
Proof.
  revert b. induction a as [|c a IH]; intros [|d b] H; cbn in H.
  - reflexivity.
  - exfalso. apply (f_equal String.length) in H. cbn in H.
    rewrite append_length in H. lia.
  - exfalso. apply (f_equal String.length) in H. cbn in H.
    rewrite append_length in H. lia.
  - injection H as -> H. f_equal. now apply IH.
Qed.

Lemma list_of_append a b :
  String.list_ascii_of_string (String.append a b) =
  String.list_ascii_of_string a ++ String.list_ascii_of_string b.
Proof. induction a as [|c a IH]; cbn; [reflexivity|now rewrite IH]. Qed.

Lemma last_after_prefix (A : Type) (l : list A) x l' d :
  last (l ++ x :: l') d = last (x :: l') d.
Proof.
  induction l as [|a l IH]; [reflexivity|].
  rewrite <- IH. cbn [app].
  destruct (l ++ x :: l') eqn:E; [destruct l; discriminate|reflexivity].
Qed.

(** X22: two panel identifiers give the same header-action identifier, and
    the same content identifier, exactly when they print the same text: two
    defined identifiers only when they are equal, and an undefined identifier
    together with the identifier [undefined] and no other.  A header-action
    identifier is never a content identifier. *)
Theorem dom_identifiers_do_not_collide a b :
  (getTabHeaderActionId a = getTabHeaderActionId b <->
   template_text a = template_text b) /\
  (getTabContentId a = getTabContentId b <-> template_text a = template_text b) /\
  (forall x y, getTabHeaderActionId (Some x) = getTabHeaderActionId (Some y) -> x = y) /\
  (forall x y, getTabContentId (Some x) = getTabContentId (Some y) -> x = y) /\
  (forall x, getTabHeaderActionId None = getTabHeaderActionId (Some x) <->
             x = "undefined"%string) /\
  (forall x, getTabContentId None = getTabContentId (Some x) <->
             x = "undefined"%string) /\
  getTabHeaderActionId a <> getTabContentId b.
Proof.
  unfold getTabHeaderActionId, getTabContentId.
  split; [split; [apply append_same_suffix|intros ->; reflexivity]|].
  split; [split; [apply append_same_suffix|intros ->; reflexivity]|].
  split; [intros x y; apply append_same_suffix|].
  split; [intros x y; apply append_same_suffix|].
  split.
  { intros x. split.
    - intros H. symmetry. exact (append_same_suffix _ _ _ H).
    - intros ->. reflexivity. }
  split.
  { intros x. split.
    - intros H. symmetry. exact (append_same_suffix _ _ _ H).
    - intros ->. reflexivity. }
  intros H.
  apply (f_equal String.list_ascii_of_string) in H.
  rewrite !list_of_append in H.
  apply (f_equal (fun l => last l Ascii.zero)) in H.
  cbn [String.list_ascii_of_string] in H.
  rewrite !last_after_prefix in H. cbn in H. discriminate H.
Qed.

Lemma dom_identifiers_do_not_collide_witness :
  getTabHeaderActionId (Some "pn_id_1"%string) = "pn_id_1_header_action"%string /\
  getTabHeaderActionId None = getTabHeaderActionId (Some "undefined"%string) /\
  getTabHeaderActionId (Some "pn_id_1"%string) <>
  getTabContentId (Some "pn_id_1_header"%string).
Proof.
  split; [reflexivity|]. split.
  - apply (proj1 (dom_identifiers_do_not_collide None (Some "undefined"%string))).
    reflexivity.
  - exact (proj2 (proj2 (proj2 (proj2 (proj2 (proj2
             (dom_identifiers_do_not_collide
                (Some "pn_id_1"%string) (Some "pn_id_1_header"%string)))))))).
Defined.

(** ** Resize observer life cycle *)

(** X23: [ngOnDestroy] after [ngAfterViewInit] in the browser with
    [autoHideButtons]: the container drops its reference to the observer and
    closes its subscription, but the observer was attached to the
    [navcontent] node and [unobserve] is called on [elementToObserve], so
    with the two nodes different the observer still observes [navcontent]. *)
Theorem destroy_leaves_navcontent_observed lc :
  autoHideButtons lc = true ->
  navcontent lc <> elementToObserve lc ->
  exists lc',
    resizeObserver (ngAfterViewInit true lc) = Some (created lc) /\
    targets (ngAfterViewInit true lc) (created lc) = [navcontent lc] /\
    ngOnDestroy (ngAfterViewInit true lc) = Some lc' /\
    resizeObserver lc' = None /\
    targets lc' (created lc) = [navcontent lc] /\
    (tabChangesSubscription lc <> None -> tabChangesSubscription lc' = Some false).
Proof.
  intros Ha Hne. unfold ngAfterViewInit. rewrite Ha.
  unfold ngOnDestroy, bindResizeObserver, unbindResizeObserver, with_observer,
         observe, unobserve. cbn.
  rewrite !Nat.eqb_refl.
  apply Nat.eqb_neq in Hne.
  destruct (tabChangesSubscription lc) eqn:Hsub; cbn;
    eexists; repeat split; cbn; rewrite ?Nat.eqb_refl; cbn; rewrite ?Hne; cbn;
    try reflexivity; congruence.
Qed.

Lemma destroy_leaves_navcontent_observed_witness :
  exists lc',
    ngOnDestroy (ngAfterViewInit true sample_lifecycle) = Some lc' /\
    resizeObserver lc' = None /\
    targets lc' 0 = [11].
Proof.
  destruct (destroy_leaves_navcontent_observed sample_lifecycle eq_refl
              (fun H => Nat.neq_succ_diag_l 10 H))
    as [lc' [_ [_ [E [Hr [Ht _]]]]]].
  exists lc'. split; [exact E|]. split; [exact Hr|exact Ht].
Defined.

(** ** The header scrolled into view *)

(** X24: [updateScrollBar(index)] picks the [index]-th rendered header.
    When the panel at [index] and every panel before it are not closed, that
    is the header of the panel at [index]; a closed panel earlier in [tabs]
    shifts the pick to a later panel's header. *)
Theorem updateScrollBar_finds_the_header_when_nothing_before_is_closed s index tab :
  tab_at index s = Some tab ->
  (forall j t, (0 <= j <= index)%Z -> tab_at j s = Some t -> is_closed s t = false) ->
  scrollBar_target s index = Some (Z.to_nat index).
Proof.
  intros Ht Hopen. unfold scrollBar_target, tab_at in *.
  destruct (index <? 0)%Z eqn:E; [discriminate|]. apply Z.ltb_ge in E.
  unfold navbar_children.
  rewrite (header_actions_prefix 0 (tabs s) (heap s) (Z.to_nat index) tab Ht).
  - reflexivity.
  - intros j t Hj Hn. apply (Hopen (Z.of_nat j)); [lia|].
    destruct (Z.of_nat j <? 0)%Z eqn:E'; [apply Z.ltb_lt in E'; lia|].
    now rewrite Nat2Z.id.
Qed.

Lemma updateScrollBar_finds_the_header_when_nothing_before_is_closed_witness :
  scrollBar_target three_tabs 2%Z = Some 2.
Proof.
  apply (updateScrollBar_finds_the_header_when_nothing_before_is_closed
           three_tabs 2%Z 2 eq_refl).
  intros j t Hj Ht.
  assert (Hin : In t (tabs three_tabs)) by exact (tab_at_in _ _ _ Ht).
  vm_compute in Hin. destruct Hin as [<-|[<-|[<-|[]]]]; reflexivity.
Defined.

(** With panel 0 closed, index 1 picks the header of panel 2, and index 2
    picks nothing. *)
Example updateScrollBar_after_a_closed_panel :
  is_closed (run no_subscribers [OpCloseTab 0; OpCloseTab 0] three_tabs) 0 = true /\
  scrollBar_target (run no_subscribers [OpCloseTab 0; OpCloseTab 0] three_tabs) 1%Z
  = Some 2 /\
  scrollBar_target (run no_subscribers [OpCloseTab 0; OpCloseTab 0] three_tabs) 2%Z
  = None.
Proof. repeat split. Qed.
